(** * Execution coordinator of the dago orchestrator

    A shallow embedding of [internal/application/orchestrator/manager.go]
    and [validator.go]: the graph validator, [SubmitGraph],
    [handleNodeCompleted], [findNextNode], [publishNodeWork],
    [completeGraph], [CancelExecution] and the deadline path
    ([monitorExecution] / [handleTimeout]), [GetStatus] and [Shutdown];
    the HTTP handlers of [pkg/api/http/handlers.go] that call the manager;
    and the in-memory adapters of [pkg/adapters] (state storage and event
    bus).

    The process state is an explicit world: the state store, the in-memory
    execution tracker ([Manager.executions]), the per-execution contexts
    created by [context.WithTimeout], the log of bus publications, a clock
    for [time.Now] and a supply of fresh identifiers for [uuid.New].
    Faults of the store and of the bus are scripted by two lists of
    booleans consumed one per call ([true] = the call returns an error). *)

From stdpp Require Import base gmap sets list strings.
From Stdlib Require Import Lia.

(* ------------------------------------------------------------------ *)
(** ** Domain types (github.com/aescanero/dago-libs/pkg/domain) *)

Inductive ExecutionStatus :=
| ExecutionStatusPending
| ExecutionStatusSubmitted
| ExecutionStatusRunning
| ExecutionStatusCompleted
| ExecutionStatusFailed
| ExecutionStatusCancelled.

#[global] Instance ExecutionStatus_eq_dec : EqDecision ExecutionStatus.
Proof. solve_decision. Defined.

Definition is_terminal (s : ExecutionStatus) : bool :=
  match s with
  | ExecutionStatusCompleted | ExecutionStatusFailed
  | ExecutionStatusCancelled => true
  | _ => false
  end.

(** [graph.NodeType]: the variants read by [publishNodeWork]. *)
Inductive NodeType := NodeTypeStart | NodeTypeExecutor | NodeTypeRouter | NodeTypeEnd.

#[global] Instance NodeType_eq_dec : EqDecision NodeType.
Proof. solve_decision. Defined.

(** A [graph.Node]: its type, and the verdict of its own [Validate] hook
    (the per-variant configuration is opaque to the coordinator). *)
Record Node := mkNode { GetType : NodeType; node_validate_ok : bool }.

Record Edge := mkEdge { From : string; To : string; Label : string }.

(** [domain.Graph]. A node value may be a nil interface, hence [option]. *)
Record Graph := mkGraph {
  g_ID : string;
  g_Version : string;
  g_Nodes : gmap string (option Node);
  g_Edges : list Edge;
  g_EntryNode : string
}.

Record NodeState := mkNodeState {
  ns_NodeID : string;
  ns_Status : ExecutionStatus;
  ns_StartedAt : option nat;
  ns_CompletedAt : option nat;
  ns_Output : option string;
  ns_Error : string
}.

(** [domain.GraphState]: the execution record kept in the store. *)
Record GraphState := mkGraphState {
  gs_GraphID : nat;
  gs_Graph : Graph;
  gs_Status : ExecutionStatus;
  gs_Inputs : gmap string string;
  gs_NodeStates : gmap string NodeState;
  gs_SubmittedAt : nat;
  gs_CompletedAt : option nat;
  gs_Error : string
}.

Definition set_ns_status (s : ExecutionStatus) (n : NodeState) : NodeState :=
  mkNodeState (ns_NodeID n) s (ns_StartedAt n) (ns_CompletedAt n) (ns_Output n) (ns_Error n).
Definition set_ns_started (t : option nat) (n : NodeState) : NodeState :=
  mkNodeState (ns_NodeID n) (ns_Status n) t (ns_CompletedAt n) (ns_Output n) (ns_Error n).
Definition set_ns_completed (t : option nat) (n : NodeState) : NodeState :=
  mkNodeState (ns_NodeID n) (ns_Status n) (ns_StartedAt n) t (ns_Output n) (ns_Error n).
Definition set_ns_output (o : option string) (n : NodeState) : NodeState :=
  mkNodeState (ns_NodeID n) (ns_Status n) (ns_StartedAt n) (ns_CompletedAt n) o (ns_Error n).
Definition set_ns_error (e : string) (n : NodeState) : NodeState :=
  mkNodeState (ns_NodeID n) (ns_Status n) (ns_StartedAt n) (ns_CompletedAt n) (ns_Output n) e.

Definition set_gs_status (s : ExecutionStatus) (r : GraphState) : GraphState :=
  mkGraphState (gs_GraphID r) (gs_Graph r) s (gs_Inputs r) (gs_NodeStates r)
    (gs_SubmittedAt r) (gs_CompletedAt r) (gs_Error r).
Definition set_gs_node_states (m : gmap string NodeState) (r : GraphState) : GraphState :=
  mkGraphState (gs_GraphID r) (gs_Graph r) (gs_Status r) (gs_Inputs r) m
    (gs_SubmittedAt r) (gs_CompletedAt r) (gs_Error r).
Definition set_gs_completed (t : option nat) (r : GraphState) : GraphState :=
  mkGraphState (gs_GraphID r) (gs_Graph r) (gs_Status r) (gs_Inputs r) (gs_NodeStates r)
    (gs_SubmittedAt r) t (gs_Error r).
Definition set_gs_error (e : string) (r : GraphState) : GraphState :=
  mkGraphState (gs_GraphID r) (gs_Graph r) (gs_Status r) (gs_Inputs r) (gs_NodeStates r)
    (gs_SubmittedAt r) (gs_CompletedAt r) e.

(** Bus envelopes ([ports.Event]); the [Data] map is given one
    constructor per shape the coordinator publishes. *)
Inductive EventType :=
| EventTypeNodeWork
| EventTypeGraphSubmitted
| EventTypeNodeStarted
| EventTypeGraphCompleted
| EventTypeGraphFailed
| EventTypeGraphCancelled.

Inductive EventData :=
| WorkData (node_id : string) (node_type : NodeType) (graph_id : nat)
    (state : gmap string string) (node_state : gmap string NodeState)
| SubmittedData (original_graph_id : string)
| NodeData (node_id : string)
| ErrorData (error : option string)
| NilData.

Record Event := mkEvent {
  ev_ID : nat;
  ev_Type : EventType;
  ev_Timestamp : nat;
  ev_ExecutionID : nat;
  ev_Data : EventData
}.

Definition TopicExecutorWork : string := "executor.work".
Definition TopicRouterWork : string := "router.work".
Definition TopicNodeCompleted : string := "node.completed".
Definition TopicGraphEvents : string := "graph.events".

(** A completion envelope received on [node.completed], after the
    [event.Data[...].(string)] assertions of [handleNodeCompleted]:
    a missing or non-string entry reads as [""]; [ce_error] is [None]
    exactly when [hasError] is false. *)
Record CompletionEvent := mkCompletion {
  ce_ExecutionID : nat;
  ce_node_id : string;
  ce_output : option string;
  ce_error : option string;
  ce_next_node : string
}.

(** Errors returned by the coordinator's functions. *)
Inductive NodeError := ErrNodeIDRequired | ErrNodeNil | ErrNodeHook.

Inductive ValidationError :=
| ErrMissingID
| ErrMissingVersion
| ErrEmptyNodes
| ErrInvalidNode (id : string) (cause : NodeError)
| ErrDuplicateNode (id : string)
| ErrUnknownEntryNode (id : string)
| ErrDanglingSource (id : string)
| ErrDanglingTarget (id : string).

Inductive Err :=
| ErrValidation (e : ValidationError)
| ErrSaveState
| ErrPublish
| ErrNodeNotFound (id : string)
| ErrExecutionNotFound (id : nat)
| ErrAlreadyTerminal (s : ExecutionStatus)
| ErrGetState (id : nat).

(* ------------------------------------------------------------------ *)
(** ** Graph validator ([validator.go]) *)

Definition validateNode (nodeID : string) (node : option Node) : option NodeError :=
  if decide (nodeID = "") then Some ErrNodeIDRequired
  else match node with
       | None => Some ErrNodeNil
       | Some n => if node_validate_ok n then None else Some ErrNodeHook
       end.

(** The loop over [g.Nodes] with its [nodeIDs] duplicate set; the map is
    iterated in the order of [map_to_list] (Go's order is unspecified). *)
Fixpoint validate_nodes (l : list (string * option Node)) (nodeIDs : gset string)
  : option ValidationError :=
  match l with
  | [] => None
  | (nodeID, node) :: l' =>
      match validateNode nodeID node with
      | Some e => Some (ErrInvalidNode nodeID e)
      | None =>
          if decide (nodeID ∈ nodeIDs) then Some (ErrDuplicateNode nodeID)
          else validate_nodes l' ({[nodeID]} ∪ nodeIDs)
      end
  end.

Fixpoint validate_edges (nodes : gmap string (option Node)) (l : list Edge)
  : option ValidationError :=
  match l with
  | [] => None
  | e :: l' =>
      if decide (nodes !! From e = None) then Some (ErrDanglingSource (From e))
      else if decide (nodes !! To e = None) then Some (ErrDanglingTarget (To e))
      else validate_edges nodes l'
  end.

Definition Validate (g : Graph) : option ValidationError :=
  if decide (g_ID g = "") then Some ErrMissingID
  else if decide (g_Version g = "") then Some ErrMissingVersion
  else if decide (g_Nodes g = ∅) then Some ErrEmptyNodes
  else match validate_nodes (map_to_list (g_Nodes g)) ∅ with
       | Some e => Some e
       | None =>
           if decide (g_EntryNode g <> "" /\ g_Nodes g !! g_EntryNode g = None)
           then Some (ErrUnknownEntryNode (g_EntryNode g))
           else validate_edges (g_Nodes g) (g_Edges g)
       end.

(* ------------------------------------------------------------------ *)
(** ** Graph accessors (dago-libs [domain.Graph]) *)

(** Modelled from the spec: [Graph.GetNode] lives in the dago-libs module,
    outside this repository; it returns the node stored under the id, or
    nil when the id is absent (or maps to a nil node). *)
Definition GetNode (g : Graph) (nodeID : string) : option Node :=
  match g_Nodes g !! nodeID with
  | Some (Some n) => Some n
  | _ => None
  end.

(** Modelled from the spec: [Graph.GetOutgoingEdges] lives in the dago-libs
    module; it returns the edges whose [From] is the node, in [Edges] order. *)
Definition GetOutgoingEdges (g : Graph) (nodeID : string) : list Edge :=
  filter (fun e => From e = nodeID) (g_Edges g).

(** [Manager.findNextNode]. *)
Definition findNextNode (g : Graph) (currentNodeID : string) : string :=
  match GetOutgoingEdges g currentNodeID with
  | [] => ""
  | e :: _ => To e
  end.

(* ------------------------------------------------------------------ *)
(** ** The process world and its monad *)

(** State of the [context.Context] created per execution by
    [context.WithTimeout]: live, cancelled by its [cancelFunc], or expired. *)
Inductive CtxState := CtxActive | CtxCanceled | CtxDeadlineExceeded.

#[global] Instance CtxState_eq_dec : EqDecision CtxState.
Proof. solve_decision. Defined.

(** [executionContext]; its [cancelFunc] cancels the context of the same id. *)
Record ExecCtx := mkExecCtx {
  ec_graphID : nat;
  ec_status : ExecutionStatus;
  ec_startedAt : nat
}.

Record World := mkWorld {
  store : gmap nat GraphState;         (* ports.StateStorage *)
  executions : gmap nat ExecCtx;       (* Manager.executions *)
  contexts : gmap nat CtxState;        (* per-execution timeout contexts *)
  published : list (string * Event);   (* successful bus publications, oldest first *)
  pub_faults : list bool;              (* scripted EventBus.Publish failures *)
  save_faults : list bool;             (* scripted SaveState failures *)
  clock : nat;                         (* time.Now *)
  uuid_next : nat                      (* uuid.New: a supply of fresh ids *)
}.

Definition set_store m w := mkWorld m (executions w) (contexts w) (published w)
  (pub_faults w) (save_faults w) (clock w) (uuid_next w).
Definition set_executions m w := mkWorld (store w) m (contexts w) (published w)
  (pub_faults w) (save_faults w) (clock w) (uuid_next w).
Definition set_contexts m w := mkWorld (store w) (executions w) m (published w)
  (pub_faults w) (save_faults w) (clock w) (uuid_next w).
Definition set_published l w := mkWorld (store w) (executions w) (contexts w) l
  (pub_faults w) (save_faults w) (clock w) (uuid_next w).
Definition set_pub_faults l w := mkWorld (store w) (executions w) (contexts w) (published w)
  l (save_faults w) (clock w) (uuid_next w).
Definition set_save_faults l w := mkWorld (store w) (executions w) (contexts w) (published w)
  (pub_faults w) l (clock w) (uuid_next w).
Definition set_clock n w := mkWorld (store w) (executions w) (contexts w) (published w)
  (pub_faults w) (save_faults w) n (uuid_next w).
Definition set_uuid_next n w := mkWorld (store w) (executions w) (contexts w) (published w)
  (pub_faults w) (save_faults w) (clock w) n.

(** A computation of the coordinator: [None] is a run that never returns
    normally (a Go panic, or recursion that does not stop within the fuel). *)
Definition M (A : Type) : Type := World -> option (A * World).

Definition ret {A} (a : A) : M A := fun w => Some (a, w).
Definition bind {A B} (m : M A) (k : A -> M B) : M B :=
  fun w => match m w with Some (a, w') => k a w' | None => None end.
Definition crash {A} : M A := fun _ => None.

Notation "'let!' x ':=' m 'in' k" := (bind m (fun x => k))
  (at level 200, x pattern, m at level 100, k at level 200, right associativity).

Definition modify (f : World -> World) : M unit := fun w => Some (tt, f w).

Definition Now : M nat := fun w => Some (clock w, set_clock (S (clock w)) w).
Definition NewUUID : M nat := fun w => Some (uuid_next w, set_uuid_next (S (uuid_next w)) w).

(** [StateStorage.SaveState]: the record is written under its [GraphID]. *)
Definition SaveState (state : GraphState) : M (option Err) := fun w =>
  match save_faults w with
  | true :: fs => Some (Some ErrSaveState, set_save_faults fs w)
  | false :: fs => Some (None, set_save_faults fs (set_store (<[gs_GraphID state := state]> (store w)) w))
  | [] => Some (None, set_store (<[gs_GraphID state := state]> (store w)) w)
  end.

(** [StateStorage.GetState]: "state not found" is [None]. *)
Definition GetState (graphID : nat) : M (option GraphState) := fun w =>
  Some (store w !! graphID, w).

(** [EventBus.Publish]. *)
Definition Publish (topic : string) (ev : Event) : M (option Err) := fun w =>
  match pub_faults w with
  | true :: fs => Some (Some ErrPublish, set_pub_faults fs w)
  | false :: fs => Some (None, set_pub_faults fs (set_published (published w ++ [(topic, ev)]) w))
  | [] => Some (None, set_published (published w ++ [(topic, ev)]) w)
  end.

Definition LoadExecution (graphID : nat) : M (option ExecCtx) := fun w =>
  Some (executions w !! graphID, w).
Definition StoreExecution (graphID : nat) (ec : ExecCtx) : M unit :=
  modify (fun w => set_executions (<[graphID := ec]> (executions w)) w).
Definition DeleteExecution (graphID : nat) : M unit :=
  modify (fun w => set_executions (delete graphID (executions w)) w).

(** The [cancelFunc] of an execution: cancels its context if still live. *)
Definition CancelContext (graphID : nat) : M unit :=
  modify (fun w => match contexts w !! graphID with
                   | Some CtxActive => set_contexts (<[graphID := CtxCanceled]> (contexts w)) w
                   | _ => w
                   end).

(** [context.WithTimeout] followed by [m.executions.Store]. *)
Definition StartExecution (graphID : nat) (startedAt : nat) : M unit :=
  modify (fun w => set_executions
                     (<[graphID := mkExecCtx graphID ExecutionStatusRunning startedAt]> (executions w))
                     (set_contexts (<[graphID := CtxActive]> (contexts w)) w)).

(* ------------------------------------------------------------------ *)
(** ** Execution manager ([manager.go]) *)

(** [Manager.publishGraphEvent]. *)
Definition publishGraphEvent (graphID : nat) (eventType : EventType) (data : EventData)
  : M (option Err) :=
  let! id := NewUUID in
  let! t := Now in
  Publish TopicGraphEvents (mkEvent id eventType t graphID data).

(** [Manager.completeGraph]; returns the mutated record ([state] is a
    pointer in Go, shared with the caller). Metrics are not modelled. *)
Definition completeGraph (graphID : nat) (state : GraphState) (status : ExecutionStatus)
  (errorMsg : string) : M GraphState :=
  let! now := Now in
  let state1 := set_gs_completed (Some now) (set_gs_status status state) in
  let state2 := if decide (errorMsg <> "") then set_gs_error errorMsg state1 else state1 in
  let! _ := SaveState state2 in
  let! val := LoadExecution graphID in
  let! _ := match val with
            | Some _ => let! _ := CancelContext graphID in DeleteExecution graphID
            | None => ret tt
            end in
  let eventType := if decide (status = ExecutionStatusFailed)
                   then EventTypeGraphFailed else EventTypeGraphCompleted in
  let data := ErrorData (if decide (errorMsg <> "") then Some errorMsg else None) in
  let! _ := publishGraphEvent graphID eventType data in
  ret state2.

(** The node state of [nodeID] set to Running with [StartedAt = now]. *)
Definition mark_running (nodeID : string) (nodeState : NodeState) (now : nat)
  (state : GraphState) : GraphState :=
  set_gs_node_states
    (<[nodeID := set_ns_started (Some now) (set_ns_status ExecutionStatusRunning nodeState)]>
       (gs_NodeStates state)) state.

(** [Manager.publishNodeWork]. The recursion through start nodes is
    unbounded in Go; [fuel] bounds its depth, running out is a
    non-returning run.
    A node id with no entry in [NodeStates] dereferences a nil pointer. *)
Fixpoint publishNodeWork (fuel : nat) (graphID : nat) (nodeID : string) (state : GraphState)
  : M (GraphState * option Err) :=
    match GetNode (gs_Graph state) nodeID with
    | None => ret (state, Some (ErrNodeNotFound nodeID))
    | Some node =>
      match gs_NodeStates state !! nodeID with
      | None => crash
      | Some nodeState =>
        let! now := Now in
        let state1 := mark_running nodeID nodeState now state in
        let! _ := SaveState state1 in
        let topic := match GetType node with
                     | NodeTypeExecutor => Some TopicExecutorWork
                     | NodeTypeRouter => Some TopicRouterWork
                     | _ => None
                     end in
        match topic with
        | None =>
          if decide (GetType node = NodeTypeEnd) then
            let! state2 := completeGraph graphID state1 ExecutionStatusCompleted "" in
            ret (state2, None)
          else
            let nextNode := findNextNode (gs_Graph state1) nodeID in
            if decide (nextNode <> "") then
              match fuel with
              | O => crash
              | S fuel' => publishNodeWork fuel' graphID nextNode state1
              end
            else ret (state1, None)
        | Some topic =>
          let! id := NewUUID in
          let! t := Now in
          let event := mkEvent id EventTypeNodeWork t graphID
                         (WorkData nodeID (GetType node) graphID
                            (gs_Inputs state1) (gs_NodeStates state1)) in
          let! perr := Publish topic event in
          match perr with
          | Some _ => ret (state1, Some ErrPublish)
          | None =>
            let! _ := publishGraphEvent graphID EventTypeNodeStarted (NodeData nodeID) in
            ret (state1, None)
          end
        end
      end
    end.

(** The record built by [SubmitGraph]: Running, every node Pending. *)
Definition initial_state (graphID : nat) (g : Graph) (inputs : gmap string string)
  (now : nat) : GraphState :=
  mkGraphState graphID g ExecutionStatusRunning inputs
    (map_imap (fun nodeID _ => Some (mkNodeState nodeID ExecutionStatusPending
                                       None None None "")) (g_Nodes g))
    now None "".

(** [SubmitGraph] up to the entry-node dispatch (lines 92-153): validate,
    mint the id, persist the record, publish GraphSubmitted, register the
    tracker entry and its timeout context. The monitoring goroutine is the
    [DeadlineExpires] step below. *)
Definition SubmitGraph_persist (g : Graph) (inputs : gmap string string)
  : M (Err + GraphState) :=
  match Validate g with
  | Some e => ret (inl (ErrValidation e))
  | None =>
    let! graphID := NewUUID in
    let! now := Now in
    let state := initial_state graphID g inputs now in
    let! serr := SaveState state in
    match serr with
    | Some _ => ret (inl ErrSaveState)
    | None =>
      let! perr := publishGraphEvent graphID EventTypeGraphSubmitted (SubmittedData (g_ID g)) in
      match perr with
      | Some e => ret (inl e)
      | None =>
        let! startedAt := Now in
        let! _ := StartExecution graphID startedAt in
        ret (inr state)
      end
    end
  end.

(** Go's [(string, error)] result of [SubmitGraph]. *)
Inductive SubmitResult := Submitted (graphID : nat) | SubmitFailed (e : Err).

(** [Manager.SubmitGraph]. *)
Definition SubmitGraph (fuel : nat) (g : Graph) (inputs : gmap string string) : M SubmitResult :=
  let! p := SubmitGraph_persist g inputs in
  match p with
  | inl e => ret (SubmitFailed e)
  | inr state =>
    let! res := publishNodeWork fuel (gs_GraphID state) (g_EntryNode g) state in
    match snd res with
    | Some _ => ret (Submitted (gs_GraphID state))   (* logged; execution will time out *)
    | None => ret (Submitted (gs_GraphID state))
    end
  end.

(** [Manager.handleNodeCompleted]. *)
Definition handleNodeCompleted (fuel : nat) (event : CompletionEvent) : M unit :=
  let graphID := ce_ExecutionID event in
  let nodeID := ce_node_id event in
  let! st := GetState graphID in
  match st with
  | None => ret tt
  | Some state =>
    match gs_NodeStates state !! nodeID with
    | None => ret tt
    | Some nodeState =>
      let! now := Now in
      let ns1 := set_ns_completed (Some now) nodeState in
      let ns2 := match ce_error event with
                 | Some errorMsg => set_ns_error errorMsg (set_ns_status ExecutionStatusFailed ns1)
                 | None => set_ns_output (ce_output event) (set_ns_status ExecutionStatusCompleted ns1)
                 end in
      let state1 := set_gs_node_states (<[nodeID := ns2]> (gs_NodeStates state)) state in
      let! _ := SaveState state1 in
      match ce_error event with
      | Some errorMsg =>
        let! _ := completeGraph graphID state1 ExecutionStatusFailed errorMsg in ret tt
      | None =>
        let nextNode := if decide (ce_next_node event <> "") then ce_next_node event
                        else findNextNode (gs_Graph state1) nodeID in
        if decide (nextNode = "") then
          let! _ := completeGraph graphID state1 ExecutionStatusCompleted "" in ret tt
        else
          let! _ := publishNodeWork fuel graphID nextNode state1 in ret tt
      end
    end
  end.

(** [Manager.CancelExecution]. *)
Definition CancelExecution (graphID : nat) : M (option Err) :=
  let! val := LoadExecution graphID in
  match val with
  | None => ret (Some (ErrExecutionNotFound graphID))
  | Some execCtx =>
    if is_terminal (ec_status execCtx) then ret (Some (ErrAlreadyTerminal (ec_status execCtx)))
    else
      let! _ := CancelContext graphID in
      let! _ := StoreExecution graphID
                  (mkExecCtx (ec_graphID execCtx) ExecutionStatusCancelled (ec_startedAt execCtx)) in
      let! st := GetState graphID in
      match st with
      | None => ret (Some (ErrGetState graphID))
      | Some state =>
        let! now := Now in
        let state1 := set_gs_completed (Some now) (set_gs_status ExecutionStatusCancelled state) in
        let! serr := SaveState state1 in
        match serr with
        | Some _ => ret (Some ErrSaveState)
        | None =>
          let! _ := publishGraphEvent graphID EventTypeGraphCancelled NilData in
          let! _ := DeleteExecution graphID in
          ret None
        end
      end
  end.

(** [Manager.handleTimeout]. *)
Definition handleTimeout (graphID : nat) : M unit :=
  let! st := GetState graphID in
  match st with
  | None => ret tt
  | Some state =>
    let! _ := completeGraph graphID state ExecutionStatusFailed "execution timeout" in ret tt
  end.

(** The timer of an execution's context fires: a live context becomes
    [DeadlineExceeded] and [monitorExecution] calls [handleTimeout]; a
    cancelled context has already released [monitorExecution]. *)
Definition DeadlineExpires (graphID : nat) : M unit := fun w =>
  match contexts w !! graphID with
  | Some CtxActive =>
    handleTimeout graphID (set_contexts (<[graphID := CtxDeadlineExceeded]> (contexts w)) w)
  | _ => Some (tt, w)
  end.

(* ------------------------------------------------------------------ *)
(** ** Properties and sample inputs *)

(** The structural conditions accepted by [Validate]. *)
Definition admissible (g : Graph) : Prop :=
  g_ID g <> "" /\ g_Version g <> "" /\ g_Nodes g <> ∅ /\
  map_Forall (fun k v => validateNode k v = None) (g_Nodes g) /\
  (g_EntryNode g <> "" -> g_Nodes g !! g_EntryNode g <> None) /\
  Forall (fun e => g_Nodes g !! From e <> None /\ g_Nodes g !! To e <> None) (g_Edges g).

(** The admission invariants I1-I5 of the spec, negated: a graph breaking
    one of them. I5 concerns an entry node that is given (non-empty). *)
Definition violates_admission (g : Graph) : Prop :=
  g_Nodes g = ∅ \/                                               (* I1 *)
  g_ID g = "" \/ g_Version g = "" \/                             (* I2 *)
  Exists (fun e => g_Nodes g !! From e = None \/ g_Nodes g !! To e = None)
    (g_Edges g) \/                                               (* I3 *)
  g_Nodes g !! "" <> None \/                                     (* I4 *)
  (g_EntryNode g <> "" /\ g_Nodes g !! g_EntryNode g = None).    (* I5 *)

(** A stored record that is not terminal carries no error message. *)
Definition record_wf (r : GraphState) : Prop :=
  is_terminal (gs_Status r) = false -> gs_Error r = "".

(** Every record is stored under its own execution id (as [SaveState]
    keys it) and is well formed. *)
Definition store_wf (w : World) : Prop :=
  map_Forall (fun k r => gs_GraphID r = k /\ record_wf r) (store w).

(** Sample graph [A(start) -> B(executor) -> C(end)], entry [A]. *)
Definition sample_graph : Graph :=
  mkGraph "g" "v1"
    (<["A" := Some (mkNode NodeTypeStart true)]>
      (<["B" := Some (mkNode NodeTypeExecutor true)]>
        (<["C" := Some (mkNode NodeTypeEnd true)]> ∅)))
    [mkEdge "A" "B" ""; mkEdge "B" "C" ""] "A".

Definition empty_world : World := mkWorld ∅ ∅ ∅ [] [] [] 0 0.

(** The sample graph with an edge to a node that does not exist. *)
Definition dangling_graph : Graph :=
  mkGraph "g" "v1" (g_Nodes sample_graph)
    [mkEdge "A" "B" ""; mkEdge "B" "Z" ""] "A".

(** The sample graph without an entry node. *)
Definition no_entry_graph : Graph :=
  mkGraph "g" "v1" (g_Nodes sample_graph) (g_Edges sample_graph) "".

(** [returns m w P]: run [m] from [w]; it returns normally with a result
    and a world satisfying [P]. *)
Definition returns {A} (m : M A) (w : World) (P : A -> World -> Prop) : Prop :=
  match m w with Some (a, w') => P a w' | None => False end.

(** The status of execution [id] in the store. *)
Definition stored_status (w : World) (id : nat) : option ExecutionStatus :=
  gs_Status <$> store w !! id.

(** The record as [completeGraph] leaves it, with [now] the clock it read. *)
Definition completed_record (state : GraphState) (status : ExecutionStatus)
  (errorMsg : string) (now : nat) : GraphState :=
  let state1 := set_gs_completed (Some now) (set_gs_status status state) in
  if decide (errorMsg <> "") then set_gs_error errorMsg state1 else state1.

(** Publications appended between two worlds, all on [graph.events]. *)
Definition only_graph_events (w w' : World) : Prop :=
  exists l, published w' = published w ++ l /\ Forall (fun p => p.1 = TopicGraphEvents) l.

(** The nodes [publishNodeWork] dispatches when called on [n]: [n] itself
    and, when [n] is a start node, those dispatched from its successor
    ([findNextNode]). *)
Inductive dispatched (g : Graph) : string -> string -> Prop :=
| dispatched_here n : dispatched g n n
| dispatched_next n node m :
    GetNode g n = Some node -> GetType node = NodeTypeStart ->
    dispatched g (findNextNode g n) m -> dispatched g n m.

(** Dispatching from [n] reaches an end node. *)
Definition dispatches_end (g : Graph) (n : string) : Prop :=
  exists m node, dispatched g n m /\ GetNode g m = Some node /\ GetType node = NodeTypeEnd.

(* ------------------------------------------------------------------ *)
(** ** The rest of the manager: status query, shutdown *)

(** [Manager.GetStatus]. A stored value always has the [*GraphState] type
    in this model, so the "invalid state type" branch is not reachable. *)
Definition GetStatus (graphID : nat) : M (Err + GraphState) :=
  let! st := GetState graphID in
  match st with
  | None => ret (inl (ErrGetState graphID))
  | Some state => ret (inr state)
  end.

(** The [executions.Range] loop of [Shutdown]: the [cancelFunc] of every
    tracked execution is called. *)
Fixpoint cancel_all (ids : list nat) : M unit :=
  match ids with
  | [] => ret tt
  | graphID :: ids' => let! _ := CancelContext graphID in cancel_all ids'
  end.

(** [Manager.Shutdown]. [m.cancel()] ends the context of the bus
    subscription made by [Start], which this world does not model;
    [executions.Range] visits the tracker entries in an unspecified order,
    here the order of [map_to_list]. *)
Definition Shutdown : M (option Err) := fun w =>
  (let! _ := cancel_all (map fst (map_to_list (executions w))) in ret None) w.

(* ------------------------------------------------------------------ *)
(** ** HTTP handlers ([pkg/api/http/handlers.go]) *)

(** The [Message] of an [ErrorDetail]: a fixed text, or [err.Error()] of
    an error returned by the manager. *)
Inductive Message := MsgText (s : string) | MsgErr (e : Err).

(** The JSON bodies the handlers write with [c.JSON]. *)
Inductive ResponseBody :=
| ErrorResponse (code : string) (message : Message)
| GraphSubmitResponse (graph_id : nat) (status : string) (submitted_at : string)
| GraphStateResponse (state : GraphState)
| ResultResponse (graph_id : nat) (status : ExecutionStatus)
    (result : gmap string NodeState) (completed_at : option nat)
| CancelResponse (graph_id : nat) (status : string) (cancelled_at : string).

Record Response := mkResponse { resp_code : nat; resp_body : ResponseBody }.

Definition StatusOK : nat := 200.
Definition StatusCreated : nat := 201.
Definition StatusBadRequest : nat := 400.
Definition StatusNotFound : nat := 404.
Definition StatusConflict : nat := 409.
Definition StatusUnprocessableEntity : nat := 422.

(** [Server.handleSubmitGraph]. The request is the outcome of
    [c.ShouldBindJSON]: its error text, or the bound graph and inputs. *)
Definition handleSubmitGraph (fuel : nat) (req : string + (Graph * gmap string string))
  : M Response :=
  match req with
  | inl bindErr => ret (mkResponse StatusBadRequest
                          (ErrorResponse "INVALID_REQUEST" (MsgText bindErr)))
  | inr (g, inputs) =>
    let! res := SubmitGraph fuel g inputs in
    match res with
    | SubmitFailed e =>
      ret (mkResponse StatusUnprocessableEntity (ErrorResponse "SUBMISSION_FAILED" (MsgErr e)))
    | Submitted graphID =>
      ret (mkResponse StatusCreated (GraphSubmitResponse graphID "submitted" ""))
    end
  end.

(** [Server.handleGetGraph]. *)
Definition handleGetGraph (graphID : nat) : M Response :=
  let! res := GetStatus graphID in
  match res with
  | inl _ => ret (mkResponse StatusNotFound (ErrorResponse "NOT_FOUND" (MsgText "Graph not found")))
  | inr state => ret (mkResponse StatusOK (GraphStateResponse state))
  end.

(** [Server.handleGetResult]. *)
Definition handleGetResult (graphID : nat) : M Response :=
  let! res := GetStatus graphID in
  match res with
  | inl _ => ret (mkResponse StatusNotFound (ErrorResponse "NOT_FOUND" (MsgText "Graph not found")))
  | inr state =>
    if decide (gs_Status state <> ExecutionStatusCompleted /\
               gs_Status state <> ExecutionStatusFailed) then
      ret (mkResponse StatusConflict
             (ErrorResponse "NOT_COMPLETED" (MsgText "Graph execution not yet completed")))
    else
      ret (mkResponse StatusOK (ResultResponse (gs_GraphID state) (gs_Status state)
                                  (gs_NodeStates state) (gs_CompletedAt state)))
  end.

(** [Server.handleCancelGraph]. *)
Definition handleCancelGraph (graphID : nat) : M Response :=
  let! err := CancelExecution graphID in
  match err with
  | Some e => ret (mkResponse StatusConflict (ErrorResponse "CANCELLATION_FAILED" (MsgErr e)))
  | None => ret (mkResponse StatusOK (CancelResponse graphID "cancelled" ""))
  end.

(* ------------------------------------------------------------------ *)
(** ** In-memory state storage ([pkg/adapters/storage/memory/memory.go]) *)

Module MemoryStorage.

(** A value of the [states] map ([map[string]interface{}]): a [state.State]
    written by [Save] (a map with values of type [V]), or the copy of a
    [*domain.GraphState] written by [SaveState]. Execution ids are [nat]
    here as in the rest of the file. *)
Inductive Stored (V : Type) :=
| StoredState (st : gmap string V)
| StoredGraphState (gs : GraphState).
Arguments StoredState {V} st.
Arguments StoredGraphState {V} gs.

Inductive MemErr := ErrStateNotFound (id : nat) | ErrInvalidStateType.

(** [InMemoryStateStorage]: its [states] map. *)
Abbreviation InMemoryStateStorage V := (gmap nat (Stored V)).

Section Storage.
Context {V : Type}.

(** [NewInMemoryStateStorage]. *)
Definition NewInMemoryStateStorage : InMemoryStateStorage V := ∅.

(** [Save]: never fails. *)
Definition Save (executionID : nat) (st : gmap string V) (s : InMemoryStateStorage V)
  : option MemErr * InMemoryStateStorage V :=
  (None, <[executionID := StoredState st]> s).

(** [Load]: the stored value must be a [state.State]. *)
Definition Load (executionID : nat) (s : InMemoryStateStorage V) : MemErr + gmap string V :=
  match s !! executionID with
  | None => inl (ErrStateNotFound executionID)
  | Some (StoredState st) => inr st
  | Some (StoredGraphState _) => inl ErrInvalidStateType
  end.

(** [Delete]: never fails, also for an absent id. *)
Definition Delete (executionID : nat) (s : InMemoryStateStorage V)
  : option MemErr * InMemoryStateStorage V :=
  (None, delete executionID s).

(** [Exists]. *)
Definition Exists (executionID : nat) (s : InMemoryStateStorage V) : bool :=
  match s !! executionID with Some _ => true | None => false end.

(** [List]: Go's map iteration order is unspecified; here it is the order
    of [map_to_list]. *)
Definition List (s : InMemoryStateStorage V) : list nat := map fst (map_to_list s).

(** [SaveState]: the argument must be a [*domain.GraphState]; a copy of the
    record is stored under its [GraphID]. *)
Definition SaveState (state : Stored V) (s : InMemoryStateStorage V)
  : option MemErr * InMemoryStateStorage V :=
  match state with
  | StoredGraphState gs => (None, <[gs_GraphID gs := StoredGraphState gs]> s)
  | StoredState _ => (Some ErrInvalidStateType, s)
  end.

(** [GetState]: whatever value is stored, without a type check. *)
Definition GetState (graphID : nat) (s : InMemoryStateStorage V) : MemErr + Stored V :=
  match s !! graphID with
  | None => inl (ErrStateNotFound graphID)
  | Some v => inr v
  end.

End Storage.
End MemoryStorage.

(* ------------------------------------------------------------------ *)
(** ** In-memory event bus ([pkg/adapters/events/memory/memory.go]) *)

Module MemoryBus.

(** A subscriber list per topic; a handler ([ports.EventHandler], a Go func
    value) is represented by an identifier. *)
Abbreviation InMemoryEventBus := (gmap string (list nat)).

Definition NewInMemoryEventBus : InMemoryEventBus := ∅.

(** [Publish]: one goroutine per handler subscribed to the topic (a copy of
    the list is taken first); never fails. The result lists the handler
    calls started, in order. *)
Definition Publish (topic : string) (event : Event) (e : InMemoryEventBus)
  : option Err * list (nat * Event) :=
  (None, map (fun h => (h, event)) (default [] (e !! topic))).

(** [Subscribe]: appends the handler to the topic's list. The goroutine it
    starts calls [unsubscribe] when the subscription context ends; that is
    not modelled. *)
Definition Subscribe (topic : string) (handler : nat) (e : InMemoryEventBus)
  : option Err * InMemoryEventBus :=
  (None, <[topic := default [] (e !! topic) ++ [handler]]> e).

(** [Unsubscribe]: drops every subscription of the topic. *)
Definition Unsubscribe (topic : string) (e : InMemoryEventBus) : option Err * InMemoryEventBus :=
  (None, delete topic e).

(** [Close]: drops every subscription. *)
Definition Close (e : InMemoryEventBus) : option Err * InMemoryEventBus := (None, ∅).

(** A sequence of [Subscribe] calls on one topic, in order. *)
Fixpoint subscribe_all (topic : string) (hs : list nat) (e : InMemoryEventBus) : InMemoryEventBus :=
  match hs with
  | [] => e
  | h :: hs' => subscribe_all topic hs' (Subscribe topic h e).2
  end.

End MemoryBus.

(** A single start node whose only edge leads back to itself. *)
Definition start_loop_graph : Graph :=
  mkGraph "loop" "v1" {[ "A" := Some (mkNode NodeTypeStart true) ]}
    [mkEdge "A" "A" ""] "A".

(** A world holding execution 0 of the sample graph as [SubmitGraph] leaves
    it before the entry dispatch: the record, the tracker entry and a live
    timeout context. *)
Definition running_world : World :=
  set_contexts {[0 := CtxActive]}
    (set_executions {[0 := mkExecCtx 0 ExecutionStatusRunning 0]}
       (set_store {[0 := initial_state 0 sample_graph ∅ 0]} empty_world)).

(* ------------------------------------------------------------------ *)
(** ** Validator lemmas *)

Lemma validate_edges_None nodes (l : list Edge) :
  validate_edges nodes l = None <->
  Forall (fun e => nodes !! From e <> None /\ nodes !! To e <> None) l.
Proof.
  induction l as [|e l IH]; simpl.
  - split; auto.
  - rewrite Forall_cons.
    destruct (decide (nodes !! From e = None)); [split; [done|intros [[]]; done]|].
    destruct (decide (nodes !! To e = None)); [split; [done|intros [[]]; done]|].
    rewrite IH. tauto.
Qed.

Lemma validate_nodes_None (l : list (string * option Node)) (s : gset string) :
  NoDup l.*1 -> (forall k, k ∈ l.*1 -> k ∉ s) ->
  validate_nodes l s = None <-> Forall (fun kv => validateNode kv.1 kv.2 = None) l.
Proof.
  revert s. induction l as [|[k v] l IH]; intros s Hnd Hs; simpl.
  - split; auto.
  - rewrite Forall_cons. simpl in *.
    apply NoDup_cons in Hnd as [Hk Hnd].
    destruct (validateNode k v) eqn:Hv; [split; [done|intros [? _]; done]|].
    destruct (decide (k ∈ s)) as [Hin|Hin].
    { exfalso. apply (Hs k); [left|]; done. }
    rewrite IH; [tauto|done|].
    intros k' Hk'. rewrite not_elem_of_union, not_elem_of_singleton. split.
    + intros ->. done.
    + apply Hs. right. done.
Qed.

Lemma Validate_None (g : Graph) : Validate g = None <-> admissible g.
Proof.
  unfold Validate, admissible.
  destruct (decide (g_ID g = "")); [split; [done|tauto]|].
  destruct (decide (g_Version g = "")); [split; [done|tauto]|].
  destruct (decide (g_Nodes g = ∅)); [split; [done|tauto]|].
  pose proof (validate_nodes_None (map_to_list (g_Nodes g)) ∅
                (NoDup_fst_map_to_list _) ltac:(set_solver)) as Hn.
  rewrite (map_Forall_to_list (fun k v => validateNode k v = None)).
  destruct (validate_nodes (map_to_list (g_Nodes g)) ∅) eqn:Hvn.
  - split; [done|]. intros (_ & _ & _ & Hf & _).
    assert (Hf' : Forall (fun kv => validateNode kv.1 kv.2 = None) (map_to_list (g_Nodes g))).
    { eapply Forall_impl; [exact Hf|]. intros [? ?]; done. }
    apply Hn in Hf'. done.
  - assert (Hf : Forall (uncurry (fun k v => validateNode k v = None)) (map_to_list (g_Nodes g))).
    { eapply Forall_impl; [apply Hn; done|]. intros [? ?]; done. }
    destruct (decide (g_EntryNode g <> "" /\ g_Nodes g !! g_EntryNode g = None)) as [He|He].
    + split; [done|]. intros (_ & _ & _ & _ & He' & _). destruct He as [He1 He2]. by destruct (He' He1).
    + rewrite validate_edges_None. split.
      * intros Hedges. repeat split; try done.
        intros Hne Hnone. apply He. done.
      * tauto.
Qed.

Lemma violates_admission_Validate (g : Graph) :
  violates_admission g -> exists e, Validate g = Some e.
Proof.
  intros Hv. destruct (Validate g) as [e|] eqn:HV; [eauto|].
  apply Validate_None in HV as (Hid & Hver & Hne & Hf & He & Hedges).
  exfalso. destruct Hv as [H|[H|[H|[H|[H|H]]]]]; try done.
  - rewrite Exists_exists in H. destruct H as (e & Hin & He').
    rewrite Forall_forall in Hedges. apply Hedges in Hin. tauto.
  - destruct (g_Nodes g !! "") as [v|] eqn:Hl; [|done].
    specialize (Hf "" v Hl). unfold validateNode in Hf.
    destruct (decide ("" = "")); done.
  - destruct H as [H1 H2]. by apply He.
Qed.

(* ------------------------------------------------------------------ *)
(** ** Submission *)

Ltac run_m :=
  unfold publishGraphEvent, NewUUID, Now, SaveState, GetState, Publish,
    LoadExecution, StoreExecution, DeleteExecution, CancelContext, StartExecution,
    modify, bind, ret, crash in *; simpl in *.

(** C7: a graph violating one of I1-I5 is refused by [SubmitGraph] with a
    validation error, and the whole world is left as it was: no record is
    written to the store (nor anything else changed). *)
Theorem SubmitGraph_invalid_no_state (fuel : nat) (g : Graph) (inputs : gmap string string)
  (w : World) :
  violates_admission g ->
  exists e, SubmitGraph fuel g inputs w = Some (SubmitFailed (ErrValidation e), w).
Proof.
  intros H. destruct (violates_admission_Validate g H) as [e He]. exists e.
  unfold SubmitGraph, SubmitGraph_persist. rewrite He. reflexivity.
Qed.

Lemma SubmitGraph_invalid_no_state_witness :
  violates_admission dangling_graph /\
  exists e, SubmitGraph 3 dangling_graph ∅ empty_world
            = Some (SubmitFailed (ErrValidation e), empty_world).
Proof.
  assert (H : violates_admission dangling_graph).
  { right; right; right; left. apply Exists_cons_tl, Exists_cons_hd. right. reflexivity. }
  split; [exact H|]. apply (SubmitGraph_invalid_no_state 3 dangling_graph ∅ empty_world H).
Defined.

(** C10: a graph satisfying every other admission condition but with an
    empty entry node passes [Validate]; when the initial store write and the
    GraphSubmitted publication succeed, [SubmitGraph] returns a fresh id,
    publishes nothing but the GraphSubmitted event (the entry dispatch fails
    with node-not-found, which is only logged), leaves the record as built
    (Running, every node Pending) and keeps its timeout context live, so the
    record stays Running until the deadline fires. *)
Theorem SubmitGraph_empty_entry (fuel : nat) (g : Graph) (inputs : gmap string string)
  (w : World) :
  g_EntryNode g = "" -> g_ID g <> "" -> g_Version g <> "" -> g_Nodes g <> ∅ ->
  map_Forall (fun k v => validateNode k v = None) (g_Nodes g) ->
  Forall (fun e => g_Nodes g !! From e <> None /\ g_Nodes g !! To e <> None) (g_Edges g) ->
  head (save_faults w) <> Some true -> head (pub_faults w) <> Some true ->
  Validate g = None /\
  exists w', SubmitGraph fuel g inputs w = Some (Submitted (uuid_next w), w') /\
    (exists ev, published w' = published w ++ [(TopicGraphEvents, ev)] /\
                ev_Type ev = EventTypeGraphSubmitted) /\
    store w' !! uuid_next w = Some (initial_state (uuid_next w) g inputs (clock w)) /\
    gs_Status (initial_state (uuid_next w) g inputs (clock w)) = ExecutionStatusRunning /\
    contexts w' !! uuid_next w = Some CtxActive.
Proof.
  intros He Hid Hver Hne Hf Hedges Hs Hp.
  assert (HV : Validate g = None).
  { apply Validate_None. repeat split; try done. }
  split; [exact HV|].
  assert (Hempty : g_Nodes g !! "" = None).
  { destruct (g_Nodes g !! "") as [v|] eqn:Hl; [|done].
    specialize (Hf "" v Hl). unfold validateNode in Hf.
    destruct (decide ("" = "")); done. }
  unfold SubmitGraph, SubmitGraph_persist. rewrite HV.
  run_m.
  destruct (save_faults w) as [|[] sf]; simpl in Hs; try congruence; simpl;
  destruct (pub_faults w) as [|[] pf]; simpl in Hp; try congruence; simpl.
  all: destruct fuel; simpl; rewrite He; unfold GetNode; simpl; rewrite Hempty; simpl.
  all: eexists; split; [reflexivity|].
  all: split; [eexists; split; reflexivity|].
  all: split; [apply lookup_insert_eq|].
  all: split; [reflexivity|apply lookup_insert_eq].
Qed.

Lemma SubmitGraph_empty_entry_witness :
  Validate no_entry_graph = None /\
  exists w', SubmitGraph 3 no_entry_graph ∅ empty_world = Some (Submitted 0, w') /\
    (exists ev, published w' = published empty_world ++ [(TopicGraphEvents, ev)] /\
                ev_Type ev = EventTypeGraphSubmitted) /\
    store w' !! 0 = Some (initial_state 0 no_entry_graph ∅ 0) /\
    gs_Status (initial_state 0 no_entry_graph ∅ 0) = ExecutionStatusRunning /\
    contexts w' !! 0 = Some CtxActive.
Proof.
  apply (SubmitGraph_empty_entry 3 no_entry_graph ∅ empty_world).
  - reflexivity.
  - discriminate.
  - discriminate.
  - vm_compute. discriminate.
  - apply map_Forall_to_list. vm_compute. repeat constructor.
  - vm_compute. repeat constructor; discriminate.
  - discriminate.
  - discriminate.
Defined.

(* ------------------------------------------------------------------ *)
(** ** Concrete runs on the sample graph *)

(** C1: a completion envelope for a Cancelled execution is not
    dropped. Submit the sample graph (execution 0), cancel it, then deliver
    the completion of node B: [handleNodeCompleted] has no terminal-status
    check, marks B Completed, follows the edge to the end node C and drives
    the record from Cancelled to Completed. *)
Theorem late_completion_overwrites_cancelled :
  returns (SubmitGraph 3 sample_graph ∅) empty_world (fun r w1 =>
    r = Submitted 0 /\
    returns (CancelExecution 0) w1 (fun e w2 =>
      e = None /\ stored_status w2 0 = Some ExecutionStatusCancelled /\
      returns (handleNodeCompleted 3 (mkCompletion 0 "B" (Some "hi") None "")) w2
        (fun _ w3 => stored_status w3 0 = Some ExecutionStatusCompleted))).
Proof. vm_compute. repeat split. Qed.

(** C2: [CancelExecution] on a terminal execution answers
    "execution not found", not AlreadyTerminal, because every terminal
    transition ([CancelExecution], [completeGraph]) deletes the tracker
    entry that the terminal-status check reads. Shown for a Cancelled
    execution and for a Completed one; the world is left unchanged. *)
Theorem cancel_terminal_not_found :
  returns (SubmitGraph 3 sample_graph ∅) empty_world (fun r w1 =>
    r = Submitted 0 /\
    returns (CancelExecution 0) w1 (fun e w2 =>
      e = None /\ stored_status w2 0 = Some ExecutionStatusCancelled /\
      CancelExecution 0 w2 = Some (Some (ErrExecutionNotFound 0), w2)) /\
    returns (handleNodeCompleted 3 (mkCompletion 0 "B" (Some "hi") None "")) w1 (fun _ w2 =>
      stored_status w2 0 = Some ExecutionStatusCompleted /\
      CancelExecution 0 w2 = Some (Some (ErrExecutionNotFound 0), w2))).
Proof. vm_compute. repeat split. Qed.

(** C3, counterexample: when the GraphSubmitted publication fails,
    [SubmitGraph] returns the error (no execution id) although the Running
    record has already been persisted. *)
Lemma submit_graph_event_failure_cex :
  returns (SubmitGraph 3 sample_graph ∅) (set_pub_faults [true] empty_world) (fun r w' =>
    r = SubmitFailed ErrPublish /\ stored_status w' 0 = Some ExecutionStatusRunning).
Proof. vm_compute. repeat split. Qed.

(** C6, counterexample: after [SubmitGraph] returns, the entry node has
    already been dispatched, so it is Running, not Pending (here the start
    node A, and its successor B). *)
Lemma submit_entry_not_pending_cex :
  returns (SubmitGraph 3 sample_graph ∅) empty_world (fun r w' =>
    r = Submitted 0 /\
    (store w' !! 0 ≫= fun st => ns_Status <$> gs_NodeStates st !! "A")
      = Some ExecutionStatusRunning).
Proof. vm_compute. repeat split. Qed.

(* ------------------------------------------------------------------ *)
(** ** Completion of a record and dispatch *)

Lemma only_graph_events_refl w : only_graph_events w w.
Proof. exists []. rewrite app_nil_r. done. Qed.

Lemma only_graph_events_app w w' l :
  published w' = published w ++ l -> Forall (fun p => p.1 = TopicGraphEvents) l ->
  only_graph_events w w'.
Proof. intros; eexists; eauto. Qed.

Lemma only_graph_events_eq w w' : published w' = published w -> only_graph_events w w'.
Proof. intros H. exists []. rewrite app_nil_r. done. Qed.

Ltac graph_events :=
  first [ apply only_graph_events_eq; reflexivity
        | eapply only_graph_events_app; [reflexivity|repeat constructor] ].

Lemma completed_record_GraphID state status errorMsg now :
  gs_GraphID (completed_record state status errorMsg now) = gs_GraphID state.
Proof. unfold completed_record. case_decide; done. Qed.

Lemma completed_record_NodeStates state status errorMsg now :
  gs_NodeStates (completed_record state status errorMsg now) = gs_NodeStates state.
Proof. unfold completed_record. case_decide; done. Qed.

Lemma completed_record_Status state status errorMsg now :
  gs_Status (completed_record state status errorMsg now) = status.
Proof. unfold completed_record. case_decide; done. Qed.

Lemma completeGraph_spec (graphID : nat) (state : GraphState) (status : ExecutionStatus)
  (errorMsg : string) (w : World) :
  exists w',
    completeGraph graphID state status errorMsg w
      = Some (completed_record state status errorMsg (clock w), w') /\
    only_graph_events w w' /\
    (save_faults w = [] ->
       store w' = <[gs_GraphID state := completed_record state status errorMsg (clock w)]>
                    (store w) /\ save_faults w' = []).
Proof.
  unfold completeGraph. run_m. fold (completed_record state status errorMsg (clock w)).
  rewrite !completed_record_GraphID.
  destruct (save_faults w) as [|b sf] eqn:Hsf; [|destruct b]; simpl.
  all: destruct (executions w !! graphID) as [e|]; simpl.
  all: destruct (contexts w !! graphID) as [[]|]; simpl.
  all: destruct (pub_faults w) as [|b pf]; [|destruct b]; simpl.
  all: eexists; split; [reflexivity|]; split; [graph_events|].
  all: intros Hs; first [discriminate | split; [reflexivity|simpl; rewrite ?Hsf; reflexivity]].
Qed.

Ltac use_completeGraph :=
  match goal with
  | |- context [completeGraph ?a ?b ?c ?d ?e] =>
      let w' := fresh "w'" in let Hc := fresh "Hc" in
      let Hog := fresh "Hog" in let Hst := fresh "Hst" in
      destruct (completeGraph_spec a b c d e) as (w' & Hc & Hog & Hst); rewrite Hc
  end.

(** C9: dispatching an end node drives the record to Completed while the
    end node's own state is left Running: [publishNodeWork] has set it
    Running with [StartedAt = now], and [completeGraph] does not touch node
    states, so its [CompletedAt] keeps its previous value (nil for a node
    still as initialised by [SubmitGraph]). When the store writes succeed
    this is the persisted record. *)
Theorem dispatch_end_node_stays_running (fuel graphID : nat) (nodeID : string)
  (state : GraphState) (node : Node) (ns : NodeState) (w : World) :
  GetNode (gs_Graph state) nodeID = Some node -> GetType node = NodeTypeEnd ->
  gs_NodeStates state !! nodeID = Some ns ->
  exists state2 w',
    publishNodeWork fuel graphID nodeID state w = Some ((state2, None), w') /\
    gs_Status state2 = ExecutionStatusCompleted /\
    gs_NodeStates state2 !! nodeID
      = Some (mkNodeState (ns_NodeID ns) ExecutionStatusRunning (Some (clock w))
                (ns_CompletedAt ns) (ns_Output ns) (ns_Error ns)) /\
    (save_faults w = [] -> store w' !! gs_GraphID state = Some state2).
Proof.
  intros HG HT Hns.
  assert (Hpnw : publishNodeWork fuel graphID nodeID state w =
    (let! _ := SaveState (mark_running nodeID ns (clock w) state) in
     let! state2 := completeGraph graphID (mark_running nodeID ns (clock w) state)
                      ExecutionStatusCompleted "" in
     ret (state2, None)) (set_clock (S (clock w)) w)).
  { destruct fuel; simpl; rewrite HG, Hns, HT; reflexivity. }
  rewrite Hpnw. unfold SaveState, bind; simpl.
  destruct (save_faults w) as [|b sf] eqn:Hsf; [|destruct b]; simpl.
  all: use_completeGraph; simpl.
  all: eexists _, _; split; [reflexivity|].
  all: rewrite completed_record_Status, completed_record_NodeStates.
  all: split; [reflexivity|]; split; [apply lookup_insert_eq|].
  all: intros Hs; try discriminate.
  destruct Hst as [-> _]; [exact Hsf|]. unfold mark_running at 1; simpl.
  apply lookup_insert_eq.
Qed.

Lemma dispatch_end_node_stays_running_witness :
  GetNode (gs_Graph (initial_state 0 sample_graph ∅ 0)) "C" = Some (mkNode NodeTypeEnd true) /\
  GetType (mkNode NodeTypeEnd true) = NodeTypeEnd /\
  gs_NodeStates (initial_state 0 sample_graph ∅ 0) !! "C"
    = Some (mkNodeState "C" ExecutionStatusPending None None None "") /\
  exists state2 w',
    publishNodeWork 1 0 "C" (initial_state 0 sample_graph ∅ 0) empty_world
      = Some ((state2, None), w') /\
    gs_Status state2 = ExecutionStatusCompleted /\
    gs_NodeStates state2 !! "C"
      = Some (mkNodeState "C" ExecutionStatusRunning (Some 0) None None "") /\
    (save_faults empty_world = [] -> store w' !! 0 = Some state2).
Proof.
  assert (H1 : GetNode (gs_Graph (initial_state 0 sample_graph ∅ 0)) "C"
               = Some (mkNode NodeTypeEnd true)) by reflexivity.
  assert (H3 : gs_NodeStates (initial_state 0 sample_graph ∅ 0) !! "C"
               = Some (mkNodeState "C" ExecutionStatusPending None None None "")) by reflexivity.
  split; [exact H1|]. split; [reflexivity|]. split; [exact H3|].
  exact (dispatch_end_node_stays_running 1 0 "C" _ _ _ empty_world H1 eq_refl H3).
Defined.

(** C8: dispatch of a node ([publishNodeWork]) when the store and the bus
    accept every call. The node state is set to Running with
    [StartedAt = now] and persisted; then
    - an executor (router) node gets one work envelope on [executor.work]
      ([router.work]) whose data carries the node id, the node type, the
      execution id as [graph_id], the execution's inputs as [state] and
      the node states (with this node already Running) as [node_state],
      followed by a NodeStarted event on [graph.events];
    - an end node publishes no work and the record is driven to Completed
      (only [graph.events] receives anything);
    - a start node publishes nothing and the dispatch continues, on the
      record just persisted, with the successor chosen by [findNextNode]
      (nothing more when there is none). *)
Theorem dispatch_by_node_type (fuel graphID : nat) (nodeID : string) (state : GraphState)
  (node : Node) (ns : NodeState) (w : World) :
  GetNode (gs_Graph state) nodeID = Some node ->
  gs_NodeStates state !! nodeID = Some ns ->
  save_faults w = [] -> pub_faults w = [] ->
  let state1 := mark_running nodeID ns (clock w) state in
  let work := mkEvent (uuid_next w) EventTypeNodeWork (S (clock w)) graphID
                (WorkData nodeID (GetType node) graphID (gs_Inputs state)
                   (gs_NodeStates state1)) in
  (forall topic,
     (GetType node = NodeTypeExecutor /\ topic = TopicExecutorWork) \/
     (GetType node = NodeTypeRouter /\ topic = TopicRouterWork) ->
     exists w',
       publishNodeWork fuel graphID nodeID state w = Some ((state1, None), w') /\
       store w' !! gs_GraphID state = Some state1 /\
       exists started, published w' = published w ++ [(topic, work); (TopicGraphEvents, started)] /\
                       ev_Type started = EventTypeNodeStarted) /\
  (GetType node = NodeTypeEnd ->
     exists w',
       publishNodeWork fuel graphID nodeID state w
         = Some ((completed_record state1 ExecutionStatusCompleted "" (S (clock w)), None), w') /\
       store w' !! gs_GraphID state
         = Some (completed_record state1 ExecutionStatusCompleted "" (S (clock w))) /\
       only_graph_events w w') /\
  (GetType node = NodeTypeStart ->
     publishNodeWork fuel graphID nodeID state w =
       (let nextNode := findNextNode (gs_Graph state) nodeID in
        if decide (nextNode <> "") then
          match fuel with
          | O => crash
          | S fuel' => publishNodeWork fuel' graphID nextNode state1
          end
        else ret (state1, None))
         (set_store (<[gs_GraphID state := state1]> (store w)) (set_clock (S (clock w)) w))).
Proof.
  intros HG Hns Hsf Hpf state1 work.
  split; [|split].
  - intros topic Htop.
    destruct Htop as [[HT ->]|[HT ->]];
      unfold work; rewrite HT;
      destruct fuel; simpl; rewrite HG, Hns, HT; run_m; rewrite Hsf; simpl;
      rewrite Hpf; simpl; rewrite Hpf; simpl;
      (eexists; split; [reflexivity|]; split;
       [apply lookup_insert_eq|eexists; split; [simpl; rewrite <- app_assoc; reflexivity|reflexivity]]).
  - intros HT.
    assert (Hpnw : publishNodeWork fuel graphID nodeID state w =
      (let! _ := SaveState state1 in
       let! state2 := completeGraph graphID state1 ExecutionStatusCompleted "" in
       ret (state2, None)) (set_clock (S (clock w)) w)).
    { destruct fuel; simpl; rewrite HG, Hns, HT; reflexivity. }
    rewrite Hpnw. unfold SaveState, bind; simpl. rewrite Hsf; simpl.
    use_completeGraph; simpl.
    eexists; split; [reflexivity|]. split.
    + destruct Hst as [-> _]; [exact Hsf|]. apply lookup_insert_eq.
    + destruct Hog as (l & Hl & Hf). exists l. split; [exact Hl|exact Hf].
  - intros HT. destruct fuel; simpl; rewrite HG, Hns, HT; unfold bind, Now, SaveState; simpl;
    rewrite Hsf; reflexivity.
Qed.

Lemma dispatch_by_node_type_witness :
  GetNode (gs_Graph (initial_state 0 sample_graph ∅ 0)) "B" = Some (mkNode NodeTypeExecutor true) /\
  gs_NodeStates (initial_state 0 sample_graph ∅ 0) !! "B"
    = Some (mkNodeState "B" ExecutionStatusPending None None None "") /\
  exists w',
    publishNodeWork 1 0 "B" (initial_state 0 sample_graph ∅ 0) empty_world
      = Some ((mark_running "B" (mkNodeState "B" ExecutionStatusPending None None None "") 0
                 (initial_state 0 sample_graph ∅ 0), None), w').
Proof.
  assert (H1 : GetNode (gs_Graph (initial_state 0 sample_graph ∅ 0)) "B"
               = Some (mkNode NodeTypeExecutor true)) by reflexivity.
  assert (H2 : gs_NodeStates (initial_state 0 sample_graph ∅ 0) !! "B"
               = Some (mkNodeState "B" ExecutionStatusPending None None None "")) by reflexivity.
  split; [exact H1|]. split; [exact H2|].
  destruct (dispatch_by_node_type 1 0 "B" _ _ _ empty_world H1 H2 eq_refl eq_refl)
    as [Hwork _].
  destruct (Hwork TopicExecutorWork (or_introl (conj eq_refl eq_refl))) as (w' & Hrun & _).
  exists w'. exact Hrun.
Defined.

(* ------------------------------------------------------------------ *)
(** ** Completion events *)

Lemma findNextNode_first_edge (g : Graph) (nodeID : string) :
  findNextNode g nodeID =
  match List.find (fun e => bool_decide (From e = nodeID)) (g_Edges g) with
  | Some e => To e
  | None => ""
  end.
Proof.
  unfold findNextNode, GetOutgoingEdges. induction (g_Edges g) as [|e l IH]; [done|].
  rewrite filter_cons. cbn [List.find]. case_decide; [rewrite bool_decide_true by done | rewrite bool_decide_false by done]; done.
Qed.

Lemma Validate_edge_target (g : Graph) (e : Edge) :
  Validate g = None -> e ∈ g_Edges g -> To e <> "".
Proof.
  intros HV Hin Hto. apply Validate_None in HV as (_ & _ & _ & Hf & _ & Hedges).
  rewrite Forall_forall in Hedges. destruct (Hedges e Hin) as [_ Ht].
  rewrite Hto in Ht. destruct (g_Nodes g !! "") as [v|] eqn:Hl; [|done].
  specialize (Hf "" v Hl). unfold validateNode in Hf. destruct (decide ("" = "")); done.
Qed.

(** C4: successor selection after a successful completion of node [nid]
    of execution [gid]. After marking the node Completed and saving, the
    handler
    - dispatches the envelope's [next_node] when it is non-empty, whatever
      the graph's edges are;
    - otherwise dispatches the [To] of the first edge, in [Edges] order,
      whose [From] is [nid];
    - and, when there is no such edge, drives the record to Completed.
    (The embedded graph is one that passed [Validate], so an edge target is
    never the empty id.) *)
Theorem successor_selection (fuel : nat) (ev : CompletionEvent) (state : GraphState)
  (ns : NodeState) (w : World) :
  ce_error ev = None ->
  store w !! ce_ExecutionID ev = Some state ->
  gs_NodeStates state !! ce_node_id ev = Some ns ->
  Validate (gs_Graph state) = None ->
  let gid := ce_ExecutionID ev in
  let nid := ce_node_id ev in
  let state1 := set_gs_node_states
                  (<[nid := set_ns_output (ce_output ev)
                              (set_ns_status ExecutionStatusCompleted
                                 (set_ns_completed (Some (clock w)) ns))]>
                     (gs_NodeStates state)) state in
  let then_runs (k : M unit) :=
    handleNodeCompleted fuel ev w = (let! _ := SaveState state1 in k) (set_clock (S (clock w)) w) in
  (ce_next_node ev <> "" ->
     then_runs (let! _ := publishNodeWork fuel gid (ce_next_node ev) state1 in ret tt)) /\
  (ce_next_node ev = "" -> forall e,
     List.find (fun e => bool_decide (From e = nid)) (g_Edges (gs_Graph state)) = Some e ->
     then_runs (let! _ := publishNodeWork fuel gid (To e) state1 in ret tt)) /\
  (ce_next_node ev = "" ->
     List.find (fun e => bool_decide (From e = nid)) (g_Edges (gs_Graph state)) = None ->
     then_runs (let! _ := completeGraph gid state1 ExecutionStatusCompleted "" in ret tt)).
Proof.
  intros Herr Hst Hns HV gid nid state1 then_runs. unfold then_runs.
  split; [|split].
  - intros Hnext. unfold handleNodeCompleted, GetState, bind at 1. simpl.
    rewrite Hst, Hns, Herr. simpl.
    destruct (decide (ce_next_node ev <> "")) as [_|]; [|done].
    destruct (decide (ce_next_node ev = "")); [done|]. reflexivity.
  - intros Hnext e Hfind. unfold handleNodeCompleted, GetState, bind at 1. simpl.
    rewrite Hst, Hns, Herr. simpl.
    destruct (decide (ce_next_node ev <> "")); [done|].
    rewrite findNextNode_first_edge. simpl. fold nid. rewrite Hfind.
    destruct (decide (To e = "")) as [Hto|]; [|reflexivity].
    exfalso. apply List.find_some in Hfind as [Hin _].
    apply (Validate_edge_target _ e HV); [apply list_elem_of_In; exact Hin|exact Hto].
  - intros Hnext Hfind. unfold handleNodeCompleted, GetState, bind at 1. simpl.
    rewrite Hst, Hns, Herr. simpl.
    destruct (decide (ce_next_node ev <> "")); [done|].
    rewrite findNextNode_first_edge. simpl. fold nid. rewrite Hfind. reflexivity.
Qed.

Lemma successor_selection_witness :
  let ev0 := mkCompletion 0 "B" (Some "hi") None "" in
  let st0 := initial_state 0 sample_graph ∅ 0 in
  let ns0 := mkNodeState "B" ExecutionStatusPending None None None "" in
  let w0 := set_store {[0 := st0]} empty_world in
  let st1 := set_gs_node_states
               (<["B" := set_ns_output (Some "hi")
                           (set_ns_status ExecutionStatusCompleted
                              (set_ns_completed (Some 0) ns0))]> (gs_NodeStates st0)) st0 in
  ce_error ev0 = None /\ store w0 !! 0 = Some st0 /\ gs_NodeStates st0 !! "B" = Some ns0 /\
  Validate (gs_Graph st0) = None /\
  handleNodeCompleted 1 ev0 w0
    = (let! _ := SaveState st1 in let! _ := publishNodeWork 1 0 "C" st1 in ret tt)
        (set_clock 1 w0).
Proof.
  intros ev0 st0 ns0 w0 st1.
  assert (H1 : ce_error ev0 = None) by reflexivity.
  assert (H2 : store w0 !! ce_ExecutionID ev0 = Some st0) by reflexivity.
  assert (H3 : gs_NodeStates st0 !! ce_node_id ev0 = Some ns0) by reflexivity.
  assert (H4 : Validate (gs_Graph st0) = None) by (vm_compute; reflexivity).
  split; [exact H1|]. split; [exact H2|]. split; [exact H3|]. split; [exact H4|].
  destruct (successor_selection 1 ev0 st0 ns0 w0 H1 H2 H3 H4) as (_ & Hedge & _).
  exact (Hedge eq_refl (mkEdge "B" "C" "") eq_refl).
Defined.

(** [SaveState] keeps the store well formed when the saved record is. *)
Lemma SaveState_store_wf (r : GraphState) (w : World) :
  store_wf w -> record_wf r ->
  forall res w', SaveState r w = Some (res, w') -> store_wf w'.
Proof.
  intros Hwf Hr res w' Hrun. unfold SaveState in Hrun.
  destruct (save_faults w) as [|[] fs]; injection Hrun as _ <-; simpl; [|exact Hwf|];
    apply map_Forall_insert_2; [split; done|exact Hwf|split; done|exact Hwf].
Qed.

(** C5: a completion envelope carrying an error for a non-terminal
    execution (store writes succeeding, store well formed) marks the named
    node Failed with the envelope's error and [CompletedAt = now], and the
    persisted record becomes Failed with [CompletedAt] set and [Error] equal
    to that message. Every other node state is left as it was, so a node
    still Pending stays Pending, and only [graph.events] messages are
    published: no successor is dispatched. *)
Theorem failed_completion_fails_record (fuel : nat) (ev : CompletionEvent)
  (state : GraphState) (ns : NodeState) (errorMsg : string) (w : World) :
  store_wf w -> save_faults w = [] ->
  ce_error ev = Some errorMsg ->
  store w !! ce_ExecutionID ev = Some state ->
  is_terminal (gs_Status state) = false ->
  gs_NodeStates state !! ce_node_id ev = Some ns ->
  exists w' state',
    handleNodeCompleted fuel ev w = Some (tt, w') /\
    store w' !! ce_ExecutionID ev = Some state' /\
    gs_Status state' = ExecutionStatusFailed /\
    gs_CompletedAt state' = Some (S (clock w)) /\
    gs_Error state' = errorMsg /\
    gs_NodeStates state' !! ce_node_id ev
      = Some (mkNodeState (ns_NodeID ns) ExecutionStatusFailed (ns_StartedAt ns)
                (Some (clock w)) (ns_Output ns) errorMsg) /\
    (forall m, m <> ce_node_id ev -> gs_NodeStates state' !! m = gs_NodeStates state !! m) /\
    only_graph_events w w'.
Proof.
  intros Hwf Hsf Herr Hst Hnt Hns.
  destruct (Hwf _ _ Hst) as [Hid Hrwf]. specialize (Hrwf Hnt).
  unfold handleNodeCompleted, GetState, Now, SaveState, bind at 1. simpl.
  rewrite Hst, Hns, Herr. simpl. unfold bind, ret. simpl. rewrite Hsf. simpl.
  use_completeGraph. simpl.
  destruct (Hst0 Hsf) as [Hstore _].
  eexists _, _. split; [reflexivity|].
  rewrite Hstore. simpl. rewrite Hid, lookup_insert_eq.
  split; [reflexivity|].
  rewrite completed_record_Status, completed_record_NodeStates. simpl.
  split; [reflexivity|].
  split; [unfold completed_record; case_decide; reflexivity|].
  split.
  { unfold completed_record; case_decide; [reflexivity|]. simpl. rewrite Hrwf.
    destruct (decide (errorMsg = "")) as [->|]; [reflexivity|contradiction]. }
  split; [apply lookup_insert_eq|].
  split; [intros m Hm; rewrite lookup_insert_ne; [reflexivity|congruence]|].
  exact Hog.
Qed.

Lemma failed_completion_fails_record_witness :
  let st0 := initial_state 0 sample_graph ∅ 0 in
  let w0 := set_store {[0 := st0]} empty_world in
  let ev0 := mkCompletion 0 "B" None (Some "boom") "" in
  store_wf w0 /\ save_faults w0 = [] /\ ce_error ev0 = Some "boom" /\
  store w0 !! 0 = Some st0 /\ is_terminal (gs_Status st0) = false /\
  gs_NodeStates st0 !! "B" = Some (mkNodeState "B" ExecutionStatusPending None None None "") /\
  exists w' st',
    handleNodeCompleted 1 ev0 w0 = Some (tt, w') /\ store w' !! 0 = Some st' /\
    gs_Status st' = ExecutionStatusFailed /\ gs_Error st' = "boom".
Proof.
  intros st0 w0 ev0.
  assert (H1 : store_wf w0).
  { apply map_Forall_singleton. split; [reflexivity|intros _; reflexivity]. }
  assert (H2 : save_faults w0 = []) by reflexivity.
  assert (H3 : ce_error ev0 = Some "boom") by reflexivity.
  assert (H4 : store w0 !! ce_ExecutionID ev0 = Some st0) by reflexivity.
  assert (H5 : is_terminal (gs_Status st0) = false) by reflexivity.
  assert (H6 : gs_NodeStates st0 !! ce_node_id ev0
               = Some (mkNodeState "B" ExecutionStatusPending None None None "")) by reflexivity.
  do 6 (split; [assumption|]).
  destruct (failed_completion_fails_record 1 ev0 st0 _ "boom" w0 H1 H2 H3 H4 H5 H6)
    as (w' & st' & Hrun & Hl & Hs & _ & He & _).
  exists w', st'. split; [exact Hrun|]. split; [exact Hl|]. split; [exact Hs|exact He].
Defined.

(** A dispatch that ends in an error leaves the stored record Running and
    the timeout contexts as they were: none of its error paths reaches
    [completeGraph]. *)
Lemma publishNodeWork_error_keeps_running (fuel : nat) : forall gid nodeID st w res w',
  gs_GraphID st = gid -> gs_Status st = ExecutionStatusRunning ->
  stored_status w gid = Some ExecutionStatusRunning ->
  publishNodeWork fuel gid nodeID st w = Some (res, w') -> snd res <> None ->
  stored_status w' gid = Some ExecutionStatusRunning /\ contexts w' = contexts w.
Proof.
  induction fuel as [|fuel IH]; intros gid nodeID st w res w' Hid Hst Hw Hrun Herr;
    simpl in Hrun.
  all: destruct (GetNode (gs_Graph st) nodeID) as [node|];
    [|unfold ret in Hrun; injection Hrun as <- <-; auto].
  all: destruct (gs_NodeStates st !! nodeID) as [ns|]; [|discriminate].
  all: run_m.
  all: destruct (save_faults w) as [|[] sf]; simpl in Hrun.
  all: destruct (GetType node); simpl in Hrun.
  all: repeat case_decide; simpl in Hrun; try discriminate.
  all: try (destruct (completeGraph _ _ _ _ _) as [[? ?]|] in Hrun; simpl in Hrun;
            [injection Hrun as <- <-; simpl in Herr; congruence|discriminate]).
  all: try (injection Hrun as <- <-; simpl in Herr; congruence).
  all: try (match type of Hrun with context [pub_faults ?x] =>
              destruct (pub_faults x) as [|[] pf] eqn:Hpf; simpl in Hrun;
              rewrite ?Hpf in Hrun; simpl in Hrun end).
  all: try (destruct pf as [|[] pf']; simpl in Hrun).
  all: try (injection Hrun as <- <-; simpl in Herr; congruence).
  all: try (injection Hrun as <- <-; unfold stored_status in *; simpl;
            rewrite ?Hid, ?lookup_insert_eq; simpl; rewrite ?Hst; auto; fail).
  all: try (eapply IH in Hrun; [destruct Hrun as [Hs Hc]; split; [exact Hs|rewrite Hc; reflexivity]|..]).
  all: first [exact Herr | unfold stored_status in *; simpl;
                rewrite ?Hid, ?lookup_insert_eq; simpl; rewrite ?Hst; auto].
Qed.

(** C3 (amended): once the Running record is persisted, the two publish
    failures of [SubmitGraph] behave differently.
    - The GraphSubmitted event failing makes [SubmitGraph] return that error
      and no execution id, although the Running record stays persisted; no
      tracker entry and no timeout context is registered for it.
    - The entry-node dispatch failing (its work envelope not published, or
      any other error of [publishNodeWork]) is only logged: [SubmitGraph]
      returns the minted id, the record stays Running and its timeout
      context is active. *)
Theorem SubmitGraph_publish_failure_outcomes (fuel : nat) (g : Graph)
  (inputs : gmap string string) (w : World) :
  Validate g = None -> head (save_faults w) <> Some true ->
  let id := uuid_next w in
  (head (pub_faults w) = Some true ->
     exists w', SubmitGraph fuel g inputs w = Some (SubmitFailed ErrPublish, w') /\
       store w' !! id = Some (initial_state id g inputs (clock w)) /\
       executions w' = executions w /\ contexts w' = contexts w) /\
  (head (pub_faults w) <> Some true ->
     exists st w1, SubmitGraph_persist g inputs w = Some (inr st, w1) /\
       st = initial_state id g inputs (clock w) /\
       forall res w', publishNodeWork fuel id (g_EntryNode g) st w1 = Some (res, w') ->
         snd res <> None ->
         SubmitGraph fuel g inputs w = Some (Submitted id, w') /\
         stored_status w' id = Some ExecutionStatusRunning /\
         contexts w' !! id = Some CtxActive).
Proof.
  intros HV Hs id. split.
  - intros Hp. unfold SubmitGraph, SubmitGraph_persist. rewrite HV. run_m.
    destruct (save_faults w) as [|[] sf]; simpl in Hs; try congruence; simpl;
    destruct (pub_faults w) as [|[] pf]; simpl in Hp; try congruence; simpl.
    all: eexists; split; [reflexivity|].
    all: split; [apply lookup_insert_eq|split; reflexivity].
  - intros Hp.
    assert (Hper : exists w1,
      SubmitGraph_persist g inputs w = Some (inr (initial_state id g inputs (clock w)), w1) /\
      stored_status w1 id = Some ExecutionStatusRunning /\ contexts w1 !! id = Some CtxActive).
    { unfold SubmitGraph_persist. rewrite HV. run_m.
      destruct (save_faults w) as [|[] sf]; simpl in Hs; try congruence; simpl;
      destruct (pub_faults w) as [|[] pf]; simpl in Hp; try congruence; simpl.
      all: eexists; split; [reflexivity|].
      all: unfold stored_status; simpl; rewrite lookup_insert_eq; split; [reflexivity|apply lookup_insert_eq]. }
    destruct Hper as (w1 & Hper & Hst1 & Hc1).
    exists (initial_state id g inputs (clock w)), w1.
    split; [exact Hper|]. split; [reflexivity|].
    intros res w' Hrun Herr.
    unfold SubmitGraph, bind. cbv beta. rewrite Hper. simpl. rewrite Hrun.
    destruct res as [r [e|]]; [|done]. simpl. split; [reflexivity|].
    destruct (publishNodeWork_error_keeps_running fuel id (g_EntryNode g) (initial_state id g inputs (clock w)) w1 _ w'
                eq_refl eq_refl Hst1 Hrun Herr) as [Hs' Hc'].
    split; [exact Hs'|]. rewrite Hc'. exact Hc1.
Qed.

Lemma SubmitGraph_publish_failure_outcomes_witness :
  Validate sample_graph = None /\
  (exists w', SubmitGraph 3 sample_graph ∅ (set_pub_faults [true] empty_world)
                = Some (SubmitFailed ErrPublish, w') /\
              store w' !! 0 = Some (initial_state 0 sample_graph ∅ 0)) /\
  (exists w', SubmitGraph 3 sample_graph ∅ (set_pub_faults [false; true] empty_world)
                = Some (Submitted 0, w') /\
              stored_status w' 0 = Some ExecutionStatusRunning /\
              contexts w' !! 0 = Some CtxActive).
Proof.
  assert (HV : Validate sample_graph = None) by (vm_compute; reflexivity).
  split; [exact HV|]. split.
  - destruct (SubmitGraph_publish_failure_outcomes 3 sample_graph ∅
                (set_pub_faults [true] empty_world) HV ltac:(discriminate)) as [H1 _].
    destruct (H1 eq_refl) as (w' & Hrun & Hst & _). exists w'. split; assumption.
  - destruct (SubmitGraph_publish_failure_outcomes 3 sample_graph ∅
                (set_pub_faults [false; true] empty_world) HV ltac:(discriminate)) as [_ H2].
    destruct (H2 ltac:(discriminate)) as (st & w1 & Hper & _ & Hdisp).
    vm_compute in Hper. injection Hper as <- <-.
    match type of Hdisp with
    | forall _ _, ?run = _ -> _ => destruct run as [[[r [e|]] w']|] eqn:Hrun
    end.
    + destruct (Hdisp (r, Some e) w' eq_refl ltac:(discriminate)) as (Hs & Hst & Hc).
      exists w'. split; [exact Hs|split; assumption].
    + exfalso. vm_compute in Hrun. injection Hrun as _ Hn _. discriminate Hn.
    + exfalso. vm_compute in Hrun. discriminate Hrun.
Defined.

(** A node id of a graph accepted by [Validate] holds a (non-nil) node. *)
Lemma Validate_GetNode (g : Graph) (m : string) :
  Validate g = None -> g_Nodes g !! m <> None -> exists node, GetNode g m = Some node.
Proof.
  intros HV Hm. apply Validate_None in HV as (_ & _ & _ & Hf & _).
  unfold GetNode. destruct (g_Nodes g !! m) as [[node|]|] eqn:Hl; [eauto| |done].
  specialize (Hf _ _ Hl). unfold validateNode in Hf. case_decide; discriminate.
Qed.

Lemma Validate_GetNode_empty (g : Graph) :
  Validate g = None -> GetNode g "" = None.
Proof.
  intros HV. apply Validate_None in HV as (_ & _ & _ & Hf & _).
  unfold GetNode. destruct (g_Nodes g !! "") as [v|] eqn:Hl; [|done].
  specialize (Hf _ _ Hl). unfold validateNode in Hf. case_decide; [discriminate|done].
Qed.

Lemma dispatched_inv g n m :
  dispatched g n m -> m = n \/
  exists node, GetNode g n = Some node /\ GetType node = NodeTypeStart /\
               dispatched g (findNextNode g n) m.
Proof. intros H. inversion H; subst; eauto. Qed.

Lemma dispatched_no_start g n m node :
  GetNode g n = Some node -> GetType node <> NodeTypeStart -> dispatched g n m -> m = n.
Proof.
  intros Hg Ht H. destruct (dispatched_inv _ _ _ H) as [->|(node' & Hg' & Ht' & _)]; [done|].
  congruence.
Qed.

Lemma dispatched_not_node g n m :
  GetNode g n = None -> dispatched g n m -> m = n.
Proof.
  intros Hg H. destruct (dispatched_inv _ _ _ H) as [->|(node' & Hg' & _)]; [done|congruence].
Qed.

Lemma mark_running_single (g : Graph) (n : string) (node : Node) (ns : NodeState) (t : nat)
  (st : GraphState) :
  GetNode g n = Some node -> GetType node <> NodeTypeStart ->
  gs_NodeStates st !! n = Some ns ->
  forall m,
    (dispatched g n m ->
       exists ns' t', gs_NodeStates st !! m = Some ns' /\
         gs_NodeStates (mark_running n ns t st) !! m
           = Some (set_ns_started (Some t') (set_ns_status ExecutionStatusRunning ns'))) /\
    (~ dispatched g n m ->
       gs_NodeStates (mark_running n ns t st) !! m = gs_NodeStates st !! m).
Proof.
  intros Hg Ht Hns m. split.
  - intros Hd. apply (dispatched_no_start _ _ _ _ Hg Ht) in Hd. subst m.
    exists ns, t. split; [exact Hns|]. apply lookup_insert_eq.
  - intros Hd. simpl. rewrite lookup_insert_ne; [reflexivity|].
    intros ->. apply Hd. constructor.
Qed.

Lemma GetNode_in (g : Graph) (m : string) (node : Node) :
  GetNode g m = Some node -> g_Nodes g !! m <> None.
Proof. unfold GetNode. destruct (g_Nodes g !! m) as [[]|]; congruence. Qed.

Lemma dispatched_start_stop (g : Graph) (n m : string) :
  Validate g = None -> findNextNode g n = "" -> g_Nodes g !! m <> None ->
  dispatched g n m -> m = n.
Proof.
  intros HV Hnx Hm Hd. destruct (dispatched_inv _ _ _ Hd) as [->|(node & _ & _ & Hd')]; [done|].
  rewrite Hnx in Hd'. apply dispatched_not_node in Hd'; [|exact (Validate_GetNode_empty g HV)].
  subst m. destruct (Validate_GetNode _ _ HV Hm) as [node' Hg'].
  rewrite (Validate_GetNode_empty g HV) in Hg'. discriminate.
Qed.

(** The effect of [publishNodeWork] on the stored record when every store
    and bus call succeeds: the nodes it dispatches are set Running from
    their previous state, the others are untouched, and the record is
    completed exactly when an end node is dispatched. *)
Lemma publishNodeWork_dispatch (fuel : nat) : forall n st w r w',
  Validate (gs_Graph st) = None ->
  (forall m, g_Nodes (gs_Graph st) !! m <> None -> gs_NodeStates st !! m <> None) ->
  save_faults w = [] -> pub_faults w = [] ->
  store w !! gs_GraphID st = Some st ->
  publishNodeWork fuel (gs_GraphID st) n st w = Some (r, w') ->
  save_faults w' = [] /\ pub_faults w' = [] /\ uuid_next w <= uuid_next w' /\
  exists st', store w' !! gs_GraphID st = Some st' /\
    gs_GraphID st' = gs_GraphID st /\ gs_Graph st' = gs_Graph st /\
    gs_Inputs st' = gs_Inputs st /\ gs_SubmittedAt st' = gs_SubmittedAt st /\
    (forall m, g_Nodes (gs_Graph st) !! m <> None ->
       (dispatched (gs_Graph st) n m ->
          exists ns t, gs_NodeStates st !! m = Some ns /\
            gs_NodeStates st' !! m
              = Some (set_ns_started (Some t) (set_ns_status ExecutionStatusRunning ns))) /\
       (~ dispatched (gs_Graph st) n m -> gs_NodeStates st' !! m = gs_NodeStates st !! m)) /\
    (forall m, gs_NodeStates st' !! m = gs_NodeStates st !! m \/
       exists ns t, gs_NodeStates st !! m = Some ns /\
         gs_NodeStates st' !! m
           = Some (set_ns_started (Some t) (set_ns_status ExecutionStatusRunning ns))) /\
    ((gs_Status st' = ExecutionStatusCompleted /\ (exists t, gs_CompletedAt st' = Some t) /\
      dispatches_end (gs_Graph st) n) \/
     (gs_Status st' = gs_Status st /\ gs_CompletedAt st' = gs_CompletedAt st /\
      ~ dispatches_end (gs_Graph st) n)).
Proof.
  induction fuel as [|fuel IH]; intros n st w r w' HV Hcov Hsf Hpf Hst Hrun; simpl in Hrun.
  all: destruct (GetNode (gs_Graph st) n) as [node|] eqn:Hg.
  2,4: unfold ret in Hrun; injection Hrun as <- <-;
    split; [done|]; split; [done|]; split; [done|];
    exists st; split; [done|]; do 4 (split; [done|]); split;
    [ intros m Hm; split;
      [ intros Hd; apply dispatched_not_node in Hd; [|done]; subst m;
        destruct (Validate_GetNode _ _ HV Hm); congruence
      | intros _; reflexivity ]
    | split; [intros m; left; reflexivity|]; right; split; [done|]; split; [done|];
      intros (m & node' & Hd & Hg' & _); apply dispatched_not_node in Hd; [|done]; congruence ].
  all: destruct (gs_NodeStates st !! n) as [ns|] eqn:Hns; [|discriminate].
  all: run_m; rewrite Hsf in Hrun; simpl in Hrun.
  all: destruct (GetType node) eqn:Ht; simpl in Hrun.
  (* executor and router nodes: the work envelope and NodeStarted are published *)
  all: try (rewrite Hpf in Hrun; simpl in Hrun; rewrite Hpf in Hrun; simpl in Hrun;
            injection Hrun as <- <-; simpl;
            split; [exact Hsf|]; split; [exact Hpf|]; split; [lia|];
            exists (mark_running n ns (clock w) st);
            split; [apply lookup_insert_eq|]; do 4 (split; [reflexivity|]); split;
            [ intros m _; apply (mark_running_single _ _ node); [exact Hg|rewrite Ht; discriminate|exact Hns]
            | (split; [intros m; destruct (decide (m = n)) as [->|Hmn]; [right; exists ns, (clock w); split; [exact Hns|apply lookup_insert_eq] | left; simpl; rewrite lookup_insert_ne by congruence; reflexivity]|]); right; split; [reflexivity|]; split; [reflexivity|];
              intros (m & node' & Hd & Hg' & He);
              apply (dispatched_no_start _ _ _ _ Hg ltac:(rewrite Ht; discriminate)) in Hd;
              subst m; congruence ]).
  (* end nodes: the record is completed *)
  all: try (unfold completeGraph in Hrun; run_m; rewrite ?Hsf in Hrun; simpl in Hrun;
            destruct (executions w !! gs_GraphID st); simpl in Hrun;
            [destruct (contexts w !! gs_GraphID st) as [[]|]; simpl in Hrun|];
            rewrite ?Hpf in Hrun; simpl in Hrun; injection Hrun as <- <-;
            (split; [exact Hsf|]); (split; [exact Hpf|]); (split; [simpl; lia|]);
            eexists; (split; [apply lookup_insert_eq|]); do 4 (split; [reflexivity|]); (split;
            [ intros m _; exact (mark_running_single _ _ node _ _ st Hg ltac:(rewrite Ht; discriminate) Hns m)
            | (split; [intros m; destruct (decide (m = n)) as [->|Hmn]; [right; exists ns, (clock w); split; [exact Hns|apply lookup_insert_eq] | left; simpl; rewrite lookup_insert_ne by congruence; reflexivity]|]); left; split; [reflexivity|]; split; [eexists; reflexivity|];
              exists n, node; split; [apply dispatched_here|]; split; [exact Hg|exact Ht] ]); fail).
  (* start nodes *)
  all: destruct (decide (findNextNode (gs_Graph st) n ≠ "")) as [Hnx|Hnx]; simpl in Hrun.
  1: discriminate.
  1,3: apply dec_stable in Hnx; injection Hrun as <- <-;
    (split; [exact Hsf|]); (split; [exact Hpf|]); (split; [simpl; lia|]);
    exists (mark_running n ns (clock w) st);
    (split; [apply lookup_insert_eq|]); do 4 (split; [reflexivity|]); (split;
    [ intros m Hm; split;
      [ intros Hd; apply (dispatched_start_stop _ _ _ HV Hnx Hm) in Hd; subst m;
        exists ns, (clock w); split; [exact Hns|apply lookup_insert_eq]
      | intros Hd; simpl; rewrite lookup_insert_ne; [reflexivity|];
        intros ->; apply Hd; apply dispatched_here ]
    | (split; [intros m; destruct (decide (m = n)) as [->|Hmn]; [right; exists ns, (clock w); split; [exact Hns|apply lookup_insert_eq] | left; simpl; rewrite lookup_insert_ne by congruence; reflexivity]|]); right; split; [reflexivity|]; split; [reflexivity|];
      intros (m & node' & Hd & Hg' & He);
      apply (dispatched_start_stop _ _ _ HV Hnx (GetNode_in _ _ _ Hg')) in Hd; subst m;
      congruence ]).
  (* a start node with a successor: the recursive dispatch *)
  set (st1 := mark_running n ns (clock w) st) in Hrun.
  set (w1 := set_store (<[gs_GraphID st:=st1]> (store w)) (set_clock (S (clock w)) w)) in Hrun.
  destruct (IH (findNextNode (gs_Graph st) n) st1 w1 r w') as
    (Hsf' & Hpf' & Hu & st' & Hst' & Hid' & Hgr' & Hin' & Hsub' & Hnodes' & Hall' & Hstat');
    [exact HV | | exact Hsf | exact Hpf | apply lookup_insert_eq | exact Hrun |].
  { intros m Hm. unfold st1. simpl. destruct (decide (m = n)) as [->|Hmn];
      [rewrite lookup_insert_eq; discriminate|rewrite lookup_insert_ne by congruence; exact (Hcov m Hm)]. }
  split; [exact Hsf'|]. split; [exact Hpf'|]. split; [simpl in Hu; lia|].
  exists st'. split; [exact Hst'|]. simpl in Hid', Hgr', Hin', Hsub'.
  do 4 (split; [assumption|]). split.
  - intros m Hm. destruct (Hnodes' m Hm) as [Hd1 Hnd1]. split.
    + intros Hd. destruct (decide (m = n)) as [->|Hmn].
      * exists ns. destruct (Hall' n) as [Hl'|(ns1 & t & Hl1 & Hl')].
        -- exists (clock w). split; [exact Hns|]. rewrite Hl'. unfold st1. apply lookup_insert_eq.
        -- unfold st1 in Hl1. simpl in Hl1. rewrite lookup_insert_eq in Hl1. injection Hl1 as <-.
           exists t. split; [exact Hns|]. rewrite Hl'. reflexivity.
      * destruct (dispatched_inv _ _ _ Hd) as [->|(node' & _ & _ & Hd')]; [congruence|].
        destruct (Hd1 Hd') as (ns1 & t & Hl1 & Hl'). unfold st1 in Hl1. simpl in Hl1.
        rewrite lookup_insert_ne in Hl1 by congruence. exists ns1, t. split; assumption.
    + intros Hd. rewrite Hnd1.
      * unfold st1. simpl. rewrite lookup_insert_ne; [reflexivity|].
        intros ->. apply Hd. apply dispatched_here.
      * intros Hdn. apply Hd. eapply dispatched_next; [exact Hg|exact Ht|exact Hdn].
  - split.
    { intros m. destruct (decide (m = n)) as [->|Hmn].
      - right. exists ns. destruct (Hall' n) as [Hl'|(ns1 & t & Hl1 & Hl')].
        + exists (clock w). split; [exact Hns|]. rewrite Hl'. unfold st1. apply lookup_insert_eq.
        + unfold st1 in Hl1. simpl in Hl1. rewrite lookup_insert_eq in Hl1. injection Hl1 as <-.
          exists t. split; [exact Hns|]. rewrite Hl'. reflexivity.
      - destruct (Hall' m) as [Hl'|(ns1 & t & Hl1 & Hl')].
        + left. rewrite Hl'. unfold st1. simpl. rewrite lookup_insert_ne by congruence. reflexivity.
        + right. exists ns1, t. unfold st1 in Hl1. simpl in Hl1.
          rewrite lookup_insert_ne in Hl1 by congruence. split; assumption. }
    destruct Hstat' as [(Hs & Hc & Hend)|(Hs & Hc & Hnend)]; [left|right].
    + split; [exact Hs|]. split; [exact Hc|].
      destruct Hend as (m & node' & Hd & Hg' & He). exists m, node'.
      split; [eapply dispatched_next; [exact Hg|exact Ht|exact Hd]|]. split; assumption.
    + split; [exact Hs|]. split; [exact Hc|].
      intros (m & node' & Hd & Hg' & He).
      destruct (dispatched_inv _ _ _ Hd) as [->|(node'' & Hg'' & _ & Hd')]; [congruence|].
      apply Hnend. exists m, node'. split; [|split]; assumption.
Qed.

(** C6 (amended): for every valid graph, with the store and bus calls
    succeeding, whenever [SubmitGraph] returns (it does not return when the
    start-node chain from the entry loops back on itself) it returns a freshly minted id: the current value of the id supply, which
    strictly grows, so later submissions get other ids. The record stored
    under it has [SubmittedAt = now] and embeds the submitted graph and
    inputs. The nodes dispatched during the submission (the entry node and,
    from each dispatched start node, its successor by [findNextNode]) are
    Running with [StartedAt] set; every other node is Pending as initialised.
    The record is Completed, with [CompletedAt] set, when an end node was
    dispatched, and Running, without [CompletedAt], otherwise. *)
Theorem SubmitGraph_fresh_running_record (fuel : nat) (g : Graph)
  (inputs : gmap string string) (w : World) (res : SubmitResult) (w' : World) :
  Validate g = None -> save_faults w = [] -> pub_faults w = [] ->
  SubmitGraph fuel g inputs w = Some (res, w') ->
  res = Submitted (uuid_next w) /\ uuid_next w < uuid_next w' /\
  exists st, store w' !! uuid_next w = Some st /\
    gs_SubmittedAt st = clock w /\ gs_Graph st = g /\ gs_Inputs st = inputs /\
    (forall n, g_Nodes g !! n <> None ->
       (dispatched g (g_EntryNode g) n ->
          exists t, gs_NodeStates st !! n
                    = Some (mkNodeState n ExecutionStatusRunning (Some t) None None "")) /\
       (~ dispatched g (g_EntryNode g) n ->
          gs_NodeStates st !! n = Some (mkNodeState n ExecutionStatusPending None None None ""))) /\
    ((gs_Status st = ExecutionStatusCompleted /\ (exists t, gs_CompletedAt st = Some t) /\
      dispatches_end g (g_EntryNode g)) \/
     (gs_Status st = ExecutionStatusRunning /\ gs_CompletedAt st = None /\
      ~ dispatches_end g (g_EntryNode g))).
Proof.
  intros HV Hsf Hpf Hrun.
  unfold SubmitGraph, SubmitGraph_persist in Hrun. rewrite HV in Hrun. run_m.
  rewrite Hsf in Hrun; simpl in Hrun. rewrite Hpf in Hrun; simpl in Hrun.
  set (st0 := initial_state (uuid_next w) g inputs (clock w)) in Hrun.
  match type of Hrun with
  | context [publishNodeWork ?f ?id ?n ?s ?w1] =>
      destruct (publishNodeWork f id n s w1) as [[r w2]|] eqn:Hp; [|discriminate];
      set (w1' := w1) in Hp
  end.
  assert (Hinit : forall n, g_Nodes g !! n <> None ->
            gs_NodeStates st0 !! n = Some (mkNodeState n ExecutionStatusPending None None None "")).
  { intros n Hn. unfold st0, initial_state. cbn [gs_NodeStates]. rewrite map_lookup_imap.
    destruct (g_Nodes g !! n); [reflexivity|contradiction]. }
  destruct (snd r); injection Hrun as <- <-.
  all: destruct (publishNodeWork_dispatch fuel (g_EntryNode g) st0 w1' r w2) as
      (_ & _ & Hu & st' & Hst' & _ & Hgr & Hin & Hsub & Hnodes & _ & Hstat);
    [exact HV| |exact Hsf|exact Hpf|apply lookup_insert_eq|exact Hp|].
  all: try (intros m Hm; rewrite (Hinit m Hm); discriminate).
  all: split; [reflexivity|]; split; [simpl in Hu; lia|].
  all: exists st'; split; [exact Hst'|].
  all: split; [exact Hsub|]; split; [exact Hgr|]; split; [exact Hin|].
  all: split; [|exact Hstat].
  all: intros n Hn; destruct (Hnodes n Hn) as [Hd Hnd]; split.
  all: try (intros Hdn; destruct (Hd Hdn) as (ns & t & Hl0 & Hl'); rewrite Hinit in Hl0 by exact Hn;
            injection Hl0 as <-; exists t; exact Hl').
  all: intros Hdn; rewrite (Hnd Hdn); exact (Hinit n Hn).
Qed.

Lemma SubmitGraph_fresh_running_record_witness :
  Validate sample_graph = None /\
  exists w' st,
    SubmitGraph 3 sample_graph ∅ empty_world = Some (Submitted 0, w') /\
    store w' !! 0 = Some st /\ gs_Status st = ExecutionStatusRunning /\
    ns_Status <$> gs_NodeStates st !! "A" = Some ExecutionStatusRunning /\
    ns_Status <$> gs_NodeStates st !! "B" = Some ExecutionStatusRunning /\
    ns_Status <$> gs_NodeStates st !! "C" = Some ExecutionStatusPending.
Proof.
  assert (HV : Validate sample_graph = None) by (vm_compute; reflexivity).
  split; [exact HV|].
  destruct (SubmitGraph 3 sample_graph ∅ empty_world) as [[res w']|] eqn:Hrun;
    [|vm_compute in Hrun; discriminate].
  destruct (SubmitGraph_fresh_running_record 3 sample_graph ∅ empty_world res w'
              HV eq_refl eq_refl Hrun)
    as (-> & _ & st & Hst & _ & _ & _ & Hnodes & Hstat).
  assert (HdA : dispatched sample_graph (g_EntryNode sample_graph) "A") by apply dispatched_here.
  assert (HdB : dispatched sample_graph (g_EntryNode sample_graph) "B").
  { eapply dispatched_next; [reflexivity|reflexivity|]. apply dispatched_here. }
  assert (HnC : ~ dispatched sample_graph (g_EntryNode sample_graph) "C").
  { intros Hd. apply dispatched_inv in Hd as [Hd|(nd & Hg & _ & Hd)]; [discriminate|].
    injection Hg as <-. apply dispatched_inv in Hd as [Hd|(nd & Hg & Ht & _)]; [discriminate|].
    injection Hg as <-. discriminate Ht. }
  assert (Hne : ~ dispatches_end sample_graph (g_EntryNode sample_graph)).
  { intros (m & nd & Hd & Hg & He).
    apply dispatched_inv in Hd as [->|(nd' & Hg' & _ & Hd)]; [injection Hg as <-; discriminate He|].
    injection Hg' as <-.
    apply dispatched_inv in Hd as [->|(nd' & Hg' & Ht & _)]; [injection Hg as <-; discriminate He|].
    injection Hg' as <-. discriminate Ht. }
  exists w', st. split; [reflexivity|]. split; [exact Hst|].
  split; [destruct Hstat as [(_ & _ & Hend)|(Hs & _)]; [contradiction|exact Hs]|].
  destruct (proj1 (Hnodes "A" ltac:(vm_compute; discriminate)) HdA) as [tA HA].
  destruct (proj1 (Hnodes "B" ltac:(vm_compute; discriminate)) HdB) as [tB HB].
  pose proof (proj2 (Hnodes "C" ltac:(vm_compute; discriminate)) HnC) as HC.
  rewrite HA, HB, HC. repeat split.
Defined.

(* ------------------------------------------------------------------ *)
(** ** Timeouts, cancellation and shutdown *)


(** When the timeout context of an execution with a stored record expires
    (store writes succeeding), [handleTimeout] drives the record to Failed
    with [Error = "execution timeout"] and [CompletedAt] set, whatever its
    status was, leaving node states and all other fields as they were; the
    tracker entry is removed, the context stays expired and only
    [graph.events] messages are published. *)
Theorem DeadlineExpires_fails_record (graphID : nat) (state : GraphState) (w : World) :
  contexts w !! graphID = Some CtxActive ->
  store w !! graphID = Some state -> gs_GraphID state = graphID -> save_faults w = [] ->
  exists w',
    DeadlineExpires graphID w = Some (tt, w') /\
    store w' = <[graphID := set_gs_error "execution timeout"
                   (set_gs_completed (Some (clock w))
                      (set_gs_status ExecutionStatusFailed state))]> (store w) /\
    executions w' = delete graphID (executions w) /\
    contexts w' = <[graphID := CtxDeadlineExceeded]> (contexts w) /\
    only_graph_events w w'.
Proof.
  intros Hc Hst Hid Hsf. unfold DeadlineExpires. rewrite Hc.
  unfold handleTimeout, completeGraph. run_m. rewrite Hst. simpl. rewrite Hsf. simpl.
  rewrite Hid.
  destruct (executions w !! graphID) as [ec|] eqn:He; simpl.
  all: rewrite ?lookup_insert_eq; simpl.
  all: destruct (pub_faults w) as [|[] pf]; simpl.
  all: eexists; split; [reflexivity|].
  all: split; [reflexivity|].
  all: split; [try reflexivity; rewrite delete_id; done|].
  all: split; [reflexivity|graph_events].
Qed.

(** When the timeout context of an execution without a stored record
    expires, [handleTimeout] returns at once: the context is marked expired
    and nothing else changes, so the tracker entry is never removed. *)
Theorem DeadlineExpires_missing_record (graphID : nat) (w : World) :
  contexts w !! graphID = Some CtxActive -> store w !! graphID = None ->
  DeadlineExpires graphID w
    = Some (tt, set_contexts (<[graphID := CtxDeadlineExceeded]> (contexts w)) w).
Proof.
  intros Hc Hst. unfold DeadlineExpires. rewrite Hc. unfold handleTimeout. run_m.
  rewrite Hst. reflexivity.
Qed.

(** Cancelling a tracked, non-terminal execution whose record is stored
    (store writes succeeding) returns no error, stores the record as
    Cancelled with [CompletedAt] set and every other field unchanged,
    deletes the tracker entry, cancels the timeout context (so its deadline
    can no longer fire) and publishes only [graph.events] messages; a
    failed GraphCancelled publication is ignored. *)
Theorem CancelExecution_success (graphID : nat) (ec : ExecCtx) (state : GraphState) (w : World) :
  executions w !! graphID = Some ec -> is_terminal (ec_status ec) = false ->
  store w !! graphID = Some state -> gs_GraphID state = graphID -> save_faults w = [] ->
  exists w',
    CancelExecution graphID w = Some (None, w') /\
    store w' = <[graphID := set_gs_completed (Some (clock w))
                              (set_gs_status ExecutionStatusCancelled state)]> (store w) /\
    executions w' = delete graphID (executions w) /\
    contexts w' !! graphID <> Some CtxActive /\
    (forall k, k <> graphID -> contexts w' !! k = contexts w !! k) /\
    only_graph_events w w' /\
    DeadlineExpires graphID w' = Some (tt, w').
Proof.
  intros He Hnt Hst Hid Hsf. unfold CancelExecution. run_m. rewrite He, Hnt. simpl.
  destruct (contexts w !! graphID) as [[]|] eqn:Hc; simpl; rewrite Hst; simpl; rewrite Hsf; simpl;
    rewrite Hid.
  all: destruct (pub_faults w) as [|[] pf]; simpl.
  all: eexists; split; [reflexivity|]; simpl.
  all: split; [reflexivity|].
  all: split; [rewrite delete_insert_eq; reflexivity|].
  all: rewrite ?lookup_insert_eq, ?Hc.
  all: split; [discriminate|].
  all: split; [intros k Hk; rewrite ?lookup_insert_ne by congruence; reflexivity|].
  all: split; [graph_events|].
  all: unfold DeadlineExpires; simpl; rewrite ?lookup_insert_eq, ?Hc; reflexivity.
Qed.

(** Cancelling a tracked, non-terminal execution whose record is missing
    from the store fails with the get-state error, but only after the
    timeout context has been cancelled and the tracker entry re-stored as
    Cancelled; the store and the bus are untouched, and a second cancel
    then reports AlreadyTerminal Cancelled. *)
Theorem CancelExecution_missing_record (graphID : nat) (ec : ExecCtx) (w : World) :
  executions w !! graphID = Some ec -> is_terminal (ec_status ec) = false ->
  store w !! graphID = None ->
  exists w',
    CancelExecution graphID w = Some (Some (ErrGetState graphID), w') /\
    executions w' = <[graphID := mkExecCtx (ec_graphID ec) ExecutionStatusCancelled
                                   (ec_startedAt ec)]> (executions w) /\
    contexts w' !! graphID <> Some CtxActive /\
    store w' = store w /\ published w' = published w /\
    CancelExecution graphID w'
      = Some (Some (ErrAlreadyTerminal ExecutionStatusCancelled), w').
Proof.
  intros He Hnt Hst. unfold CancelExecution. run_m. rewrite He, Hnt. simpl.
  destruct (contexts w !! graphID) as [[]|] eqn:Hc; simpl; rewrite Hst; simpl.
  all: eexists; split; [reflexivity|]; simpl.
  all: split; [reflexivity|].
  all: rewrite ?lookup_insert_eq, ?Hc.
  all: split; [discriminate|].
  all: split; [reflexivity|]; split; [reflexivity|].
  all: unfold CancelExecution; run_m; reflexivity.
Qed.

Lemma DeadlineExpires_fails_record_witness :
  contexts running_world !! 0 = Some CtxActive /\
  store running_world !! 0 = Some (initial_state 0 sample_graph ∅ 0) /\
  gs_GraphID (initial_state 0 sample_graph ∅ 0) = 0 /\ save_faults running_world = [] /\
  exists w', DeadlineExpires 0 running_world = Some (tt, w') /\
    stored_status w' 0 = Some ExecutionStatusFailed /\ executions w' !! 0 = None.
Proof.
  assert (H1 : contexts running_world !! 0 = Some CtxActive) by reflexivity.
  assert (H2 : store running_world !! 0 = Some (initial_state 0 sample_graph ∅ 0)) by reflexivity.
  assert (H3 : gs_GraphID (initial_state 0 sample_graph ∅ 0) = 0) by reflexivity.
  assert (H4 : save_faults running_world = []) by reflexivity.
  do 4 (split; [assumption|]).
  destruct (DeadlineExpires_fails_record 0 _ running_world H1 H2 H3 H4)
    as (w' & Hrun & Hs & He & _).
  exists w'. split; [exact Hrun|]. unfold stored_status. rewrite Hs, He.
  split; [vm_compute; reflexivity|apply lookup_delete_eq].
Defined.

Lemma DeadlineExpires_missing_record_witness :
  let w0 := set_contexts {[0 := CtxActive]} empty_world in
  contexts w0 !! 0 = Some CtxActive /\ store w0 !! 0 = None /\
  DeadlineExpires 0 w0 = Some (tt, set_contexts {[0 := CtxDeadlineExceeded]} empty_world).
Proof.
  intros w0.
  assert (H1 : contexts w0 !! 0 = Some CtxActive) by reflexivity.
  assert (H2 : store w0 !! 0 = None) by reflexivity.
  split; [exact H1|]. split; [exact H2|].
  rewrite (DeadlineExpires_missing_record 0 w0 H1 H2). vm_compute. reflexivity.
Defined.

Lemma CancelExecution_success_witness :
  executions running_world !! 0 = Some (mkExecCtx 0 ExecutionStatusRunning 0) /\
  is_terminal ExecutionStatusRunning = false /\
  store running_world !! 0 = Some (initial_state 0 sample_graph ∅ 0) /\
  gs_GraphID (initial_state 0 sample_graph ∅ 0) = 0 /\ save_faults running_world = [] /\
  exists w', CancelExecution 0 running_world = Some (None, w') /\
    stored_status w' 0 = Some ExecutionStatusCancelled /\ DeadlineExpires 0 w' = Some (tt, w').
Proof.
  assert (H1 : executions running_world !! 0 = Some (mkExecCtx 0 ExecutionStatusRunning 0))
    by reflexivity.
  assert (H2 : is_terminal (ec_status (mkExecCtx 0 ExecutionStatusRunning 0)) = false)
    by reflexivity.
  assert (H3 : store running_world !! 0 = Some (initial_state 0 sample_graph ∅ 0)) by reflexivity.
  assert (H4 : gs_GraphID (initial_state 0 sample_graph ∅ 0) = 0) by reflexivity.
  assert (H5 : save_faults running_world = []) by reflexivity.
  do 5 (split; [assumption|]).
  destruct (CancelExecution_success 0 _ _ running_world H1 H2 H3 H4 H5)
    as (w' & Hrun & Hs & _ & _ & _ & _ & Hd).
  exists w'. split; [exact Hrun|]. unfold stored_status. rewrite Hs.
  split; [vm_compute; reflexivity|exact Hd].
Defined.

Lemma CancelExecution_missing_record_witness :
  let w0 := set_store ∅ running_world in
  executions w0 !! 0 = Some (mkExecCtx 0 ExecutionStatusRunning 0) /\
  is_terminal ExecutionStatusRunning = false /\ store w0 !! 0 = None /\
  exists w', CancelExecution 0 w0 = Some (Some (ErrGetState 0), w') /\
    CancelExecution 0 w' = Some (Some (ErrAlreadyTerminal ExecutionStatusCancelled), w').
Proof.
  intros w0.
  assert (H1 : executions w0 !! 0 = Some (mkExecCtx 0 ExecutionStatusRunning 0)) by reflexivity.
  assert (H2 : is_terminal (ec_status (mkExecCtx 0 ExecutionStatusRunning 0)) = false)
    by reflexivity.
  assert (H3 : store w0 !! 0 = None) by reflexivity.
  do 3 (split; [assumption|]).
  destruct (CancelExecution_missing_record 0 _ w0 H1 H2 H3) as (w' & Hrun & _ & _ & _ & _ & Hagain).
  exists w'. split; [exact Hrun|exact Hagain].
Defined.


(** [completeGraph] on a tracked execution deletes its tracker entry and
    leaves its timeout context not live, so a later deadline does nothing;
    the contexts of other executions are untouched. *)
Theorem completeGraph_disarms_deadline (graphID : nat) (state : GraphState)
  (status : ExecutionStatus) (errorMsg : string) (ec : ExecCtx) (w : World) :
  executions w !! graphID = Some ec ->
  exists st w',
    completeGraph graphID state status errorMsg w = Some (st, w') /\
    executions w' = delete graphID (executions w) /\
    contexts w' !! graphID <> Some CtxActive /\
    (forall k, k <> graphID -> contexts w' !! k = contexts w !! k) /\
    DeadlineExpires graphID w' = Some (tt, w').
Proof.
  intros He. unfold completeGraph. run_m.
  destruct (save_faults w) as [|[] sf]; simpl; rewrite He; simpl.
  all: destruct (contexts w !! graphID) as [[]|] eqn:Hc; simpl.
  all: destruct (pub_faults w) as [|[] pf]; simpl.
  all: eexists _, _; split; [reflexivity|]; simpl.
  all: split; [reflexivity|].
  all: rewrite ?lookup_insert_eq, ?Hc.
  all: split; [discriminate|].
  all: split; [intros k Hk; rewrite ?lookup_insert_ne by congruence; reflexivity|].
  all: unfold DeadlineExpires; simpl; rewrite ?lookup_insert_eq, ?Hc; reflexivity.
Qed.

(** A completion envelope for an execution without a stored record, or for
    a node without a node state in the record, is dropped: the world is
    left exactly as it was. *)
Theorem handleNodeCompleted_drops_unknown (fuel : nat) (ev : CompletionEvent) (w : World) :
  (store w !! ce_ExecutionID ev = None \/
   exists state, store w !! ce_ExecutionID ev = Some state /\
                 gs_NodeStates state !! ce_node_id ev = None) ->
  handleNodeCompleted fuel ev w = Some (tt, w).
Proof.
  intros [Hst | (state & Hst & Hns)]; unfold handleNodeCompleted; run_m; rewrite Hst;
    [reflexivity|rewrite Hns; reflexivity].
Qed.

Lemma handleNodeCompleted_drops_unknown_witness :
  let ev0 := mkCompletion 0 "Z" (Some "hi") None "" in
  let w0 := set_store {[0 := initial_state 0 sample_graph ∅ 0]} empty_world in
  (exists state, store w0 !! 0 = Some state /\ gs_NodeStates state !! "Z" = None) /\
  handleNodeCompleted 3 ev0 w0 = Some (tt, w0).
Proof.
  intros ev0 w0.
  assert (H : exists state, store w0 !! ce_ExecutionID ev0 = Some state /\
                            gs_NodeStates state !! ce_node_id ev0 = None).
  { eexists. split; [reflexivity|vm_compute; reflexivity]. }
  split; [exact H|]. exact (handleNodeCompleted_drops_unknown 3 ev0 w0 (or_intror H)).
Defined.

(** A successful completion whose [next_node] is not a node of the graph
    marks the completed node Completed and saves the record, whose status
    stays as it was; the dispatch then fails with node-not-found, which is
    ignored: nothing is published and the tracker and the contexts are
    unchanged, so the execution waits for its deadline. *)
Theorem completion_unknown_next_node (fuel : nat) (ev : CompletionEvent) (state : GraphState)
  (ns : NodeState) (w : World) :
  ce_error ev = None -> ce_next_node ev <> "" ->
  GetNode (gs_Graph state) (ce_next_node ev) = None ->
  store w !! ce_ExecutionID ev = Some state -> gs_GraphID state = ce_ExecutionID ev ->
  gs_NodeStates state !! ce_node_id ev = Some ns -> save_faults w = [] ->
  exists w',
    handleNodeCompleted fuel ev w = Some (tt, w') /\
    store w' = <[ce_ExecutionID ev :=
                   set_gs_node_states
                     (<[ce_node_id ev := set_ns_output (ce_output ev)
                                           (set_ns_status ExecutionStatusCompleted
                                              (set_ns_completed (Some (clock w)) ns))]>
                        (gs_NodeStates state)) state]> (store w) /\
    executions w' = executions w /\ contexts w' = contexts w /\ published w' = published w.
Proof.
  intros Herr Hnext Hget Hst Hid Hns Hsf. unfold handleNodeCompleted. run_m.
  rewrite Hst, Hns, Herr. simpl. rewrite Hsf. simpl.
  destruct (decide (ce_next_node ev <> "")); [|contradiction].
  destruct (decide (ce_next_node ev = "")); [contradiction|].
  destruct fuel; simpl; rewrite Hget; simpl; rewrite Hid.
  all: eexists; split; [reflexivity|]; repeat split.
Qed.

(** Dispatching a start node whose first outgoing edge leads back to it
    never returns. *)
Lemma publishNodeWork_start_loop (fuel : nat) : forall graphID nodeID state node w,
  GetNode (gs_Graph state) nodeID = Some node -> GetType node = NodeTypeStart ->
  findNextNode (gs_Graph state) nodeID = nodeID -> nodeID <> "" ->
  gs_NodeStates state !! nodeID <> None ->
  publishNodeWork fuel graphID nodeID state w = None.
Proof.
  induction fuel as [|fuel IH]; intros graphID nodeID state node w Hget Hty Hnext Hne Hns;
    simpl; rewrite Hget; destruct (gs_NodeStates state !! nodeID) as [ns|] eqn:Hl;
    try contradiction; run_m; rewrite Hty; simpl.
  all: destruct (save_faults w) as [|[] sf]; simpl; rewrite Hnext.
  all: destruct (decide (nodeID <> "")); [|contradiction]; try reflexivity.
  all: apply (IH _ _ _ node); simpl; [exact Hget|exact Hty|exact Hnext|exact Hne|].
  all: rewrite lookup_insert_eq; discriminate.
Qed.

(** For a valid graph whose entry node is a start node whose first outgoing
    edge leads back to it, [SubmitGraph] never returns once the record is
    saved and the GraphSubmitted event published: [publishNodeWork]
    recurses through the start node without end (for every fuel). *)
Theorem SubmitGraph_start_self_loop (fuel : nat) (g : Graph) (inputs : gmap string string)
  (node : Node) (w : World) :
  Validate g = None ->
  GetNode g (g_EntryNode g) = Some node -> GetType node = NodeTypeStart ->
  findNextNode g (g_EntryNode g) = g_EntryNode g ->
  head (save_faults w) <> Some true -> head (pub_faults w) <> Some true ->
  SubmitGraph fuel g inputs w = None.
Proof.
  intros HV Hget Hty Hnext Hs Hp.
  assert (Hin : g_Nodes g !! g_EntryNode g = Some (Some node)).
  { unfold GetNode in Hget. destruct (g_Nodes g !! g_EntryNode g) as [[]|]; congruence. }
  assert (Hne : g_EntryNode g <> "").
  { apply Validate_None in HV as (_ & _ & _ & Hf & _). intros He.
    specialize (Hf _ _ Hin). rewrite He in Hf. unfold validateNode in Hf.
    destruct (decide ("" = "")); done. }
  unfold SubmitGraph, SubmitGraph_persist. rewrite HV. run_m.
  destruct (save_faults w) as [|[] sf]; simpl in Hs; try congruence; simpl;
  destruct (pub_faults w) as [|[] pf]; simpl in Hp; try congruence; simpl.
  all: erewrite publishNodeWork_start_loop; [reflexivity|exact Hget|exact Hty|exact Hnext|exact Hne|].
  all: unfold initial_state; simpl; rewrite map_lookup_imap, Hin; discriminate.
Qed.

Lemma SubmitGraph_start_self_loop_witness :
  Validate start_loop_graph = None /\
  GetNode start_loop_graph "A" = Some (mkNode NodeTypeStart true) /\
  findNextNode start_loop_graph "A" = "A" /\
  SubmitGraph 1000 start_loop_graph ∅ empty_world = None.
Proof.
  assert (H1 : Validate start_loop_graph = None) by (vm_compute; reflexivity).
  assert (H2 : GetNode start_loop_graph (g_EntryNode start_loop_graph)
               = Some (mkNode NodeTypeStart true)) by (vm_compute; reflexivity).
  assert (H3 : findNextNode start_loop_graph (g_EntryNode start_loop_graph)
               = g_EntryNode start_loop_graph) by (vm_compute; reflexivity).
  split; [exact H1|]. split; [exact H2|]. split; [exact H3|].
  exact (SubmitGraph_start_self_loop 1000 start_loop_graph ∅ _ empty_world H1 H2 eq_refl H3
           ltac:(discriminate) ltac:(discriminate)).
Defined.

Lemma completeGraph_disarms_deadline_witness :
  executions running_world !! 0 = Some (mkExecCtx 0 ExecutionStatusRunning 0) /\
  exists st w',
    completeGraph 0 (initial_state 0 sample_graph ∅ 0) ExecutionStatusCompleted "" running_world
      = Some (st, w') /\
    executions w' !! 0 = None /\ DeadlineExpires 0 w' = Some (tt, w').
Proof.
  assert (H : executions running_world !! 0 = Some (mkExecCtx 0 ExecutionStatusRunning 0))
    by reflexivity.
  split; [exact H|].
  destruct (completeGraph_disarms_deadline 0 (initial_state 0 sample_graph ∅ 0)
              ExecutionStatusCompleted "" _ running_world H) as (st & w' & Hrun & He & _ & _ & Hd).
  exists st, w'. split; [exact Hrun|]. rewrite He. split; [apply lookup_delete_eq|exact Hd].
Defined.

Lemma completion_unknown_next_node_witness :
  let ev0 := mkCompletion 0 "B" (Some "hi") None "Z" in
  GetNode sample_graph "Z" = None /\
  exists w', handleNodeCompleted 3 ev0 running_world = Some (tt, w') /\
    stored_status w' 0 = Some ExecutionStatusRunning /\
    published w' = [] /\ contexts w' = contexts running_world.
Proof.
  intros ev0.
  assert (H1 : ce_error ev0 = None) by reflexivity.
  assert (H2 : ce_next_node ev0 <> "") by discriminate.
  assert (H3 : GetNode (gs_Graph (initial_state 0 sample_graph ∅ 0)) (ce_next_node ev0) = None)
    by (vm_compute; reflexivity).
  assert (H4 : store running_world !! ce_ExecutionID ev0 = Some (initial_state 0 sample_graph ∅ 0))
    by reflexivity.
  assert (H5 : gs_GraphID (initial_state 0 sample_graph ∅ 0) = ce_ExecutionID ev0) by reflexivity.
  assert (H6 : gs_NodeStates (initial_state 0 sample_graph ∅ 0) !! ce_node_id ev0
               = Some (mkNodeState "B" ExecutionStatusPending None None None "")) by reflexivity.
  assert (H7 : save_faults running_world = []) by reflexivity.
  split; [exact H3|].
  destruct (completion_unknown_next_node 3 ev0 _ _ running_world H1 H2 H3 H4 H5 H6 H7)
    as (w' & Hrun & Hs & _ & Hc & Hp).
  exists w'. split; [exact Hrun|]. unfold stored_status. rewrite Hs.
  split; [vm_compute; reflexivity|]. split; [exact Hp|exact Hc].
Defined.


(* ------------------------------------------------------------------ *)
(** ** Validator and successor choice *)

(** The edge checks never report a duplicate node. *)
Lemma validate_edges_not_duplicate nodes (l : list Edge) (id : string) :
  validate_edges nodes l <> Some (ErrDuplicateNode id).
Proof.
  induction l as [|e l IH]; simpl; [discriminate|].
  repeat case_decide; first [discriminate | exact IH].
Qed.

(** The node loop never reports a duplicate when the ids are distinct and
    not yet seen. *)
Lemma validate_nodes_not_duplicate (l : list (string * option Node)) (s : gset string)
  (id : string) :
  NoDup l.*1 -> (forall k, k ∈ l.*1 -> k ∉ s) ->
  validate_nodes l s <> Some (ErrDuplicateNode id).
Proof.
  revert s. induction l as [|[k v] l IH]; intros s Hnd Hs; simpl; [discriminate|].
  apply NoDup_cons in Hnd as [Hk Hnd].
  destruct (validateNode k v); [discriminate|].
  case_decide as Hin; [exfalso; exact (Hs k (list_elem_of_here _ _) Hin)|].
  apply IH; [exact Hnd|]. intros k' Hk'. rewrite elem_of_union, elem_of_singleton.
  intros [->|H]; [contradiction|]. exact (Hs k' (list_elem_of_further _ _ _ Hk') H).
Qed.

(** [Validate] never reports a duplicate node id: the ids it checks are the
    keys of the node map, which are distinct. *)
Theorem Validate_never_duplicate (g : Graph) (id : string) :
  Validate g <> Some (ErrDuplicateNode id).
Proof.
  unfold Validate.
  destruct (decide (g_ID g = "")); [discriminate|].
  destruct (decide (g_Version g = "")); [discriminate|].
  destruct (decide (g_Nodes g = ∅)); [discriminate|].
  destruct (validate_nodes (map_to_list (g_Nodes g)) ∅) as [e|] eqn:Hv.
  - intros [= ->]. revert Hv. apply validate_nodes_not_duplicate;
      [apply NoDup_fst_map_to_list | intros k _; apply not_elem_of_empty].
  - case_decide; [discriminate|apply validate_edges_not_duplicate].
Qed.

(** On a graph accepted by [Validate], [findNextNode] returns either the
    empty id or the id of a node of the graph. *)
Theorem findNextNode_valid_target (g : Graph) (nodeID : string) :
  Validate g = None ->
  findNextNode g nodeID = "" \/ g_Nodes g !! findNextNode g nodeID <> None.
Proof.
  intros HV. rewrite findNextNode_first_edge.
  destruct (List.find _ _) as [e|] eqn:Hf; [right|left; reflexivity].
  apply List.find_some in Hf as [Hin _].
  apply Validate_None in HV as (_ & _ & _ & _ & _ & Hedges).
  rewrite Forall_forall in Hedges. apply Hedges. apply list_elem_of_In. exact Hin.
Qed.

Lemma findNextNode_valid_target_witness :
  Validate sample_graph = None /\ findNextNode sample_graph "A" = "B" /\
  g_Nodes sample_graph !! "B" <> None.
Proof.
  assert (HV : Validate sample_graph = None) by (vm_compute; reflexivity).
  split; [exact HV|]. split; [vm_compute; reflexivity|].
  destruct (findNextNode_valid_target sample_graph "A" HV) as [H|H];
    vm_compute in H; [discriminate|exact H].
Defined.

(* ------------------------------------------------------------------ *)
(** ** Shutdown *)

(** The effect of cancelling the contexts of a list of ids. *)
Lemma cancel_all_spec (ids : list nat) : forall w, exists w',
  cancel_all ids w = Some (tt, w') /\
  store w' = store w /\ executions w' = executions w /\ published w' = published w /\
  (forall k, k ∈ ids -> contexts w' !! k <> Some CtxActive) /\
  (forall k, k ∉ ids -> contexts w' !! k = contexts w !! k).
Proof.
  induction ids as [|i ids IH]; intros w.
  - exists w. repeat split; [intros k Hk; apply elem_of_nil in Hk; contradiction].
  - simpl. unfold bind, CancelContext, modify.
    set (w1 := match contexts w !! i with
               | Some CtxActive => set_contexts (<[i:=CtxCanceled]> (contexts w)) w
               | _ => w end).
    assert (Hw1 : store w1 = store w /\ executions w1 = executions w /\
                  published w1 = published w /\ contexts w1 !! i <> Some CtxActive /\
                  forall k, k <> i -> contexts w1 !! k = contexts w !! k).
    { unfold w1. destruct (contexts w !! i) as [[]|] eqn:Hc; simpl;
        rewrite ?lookup_insert_eq, ?Hc; repeat split; try discriminate;
        intros k Hk; rewrite ?lookup_insert_ne by congruence; reflexivity. }
    destruct Hw1 as (Hs1 & He1 & Hp1 & Hi1 & Ho1).
    destruct (IH w1) as (w' & Hrun & Hs & He & Hp & Hin & Hout).
    exists w'. rewrite Hrun. split; [reflexivity|].
    split; [congruence|]. split; [congruence|]. split; [congruence|]. split.
    + intros k Hk. apply elem_of_cons in Hk as [->|Hk].
      * destruct (decide (i ∈ ids)) as [Hi|Hi]; [exact (Hin i Hi)|rewrite Hout; done].
      * exact (Hin k Hk).
    + intros k Hk. rewrite not_elem_of_cons in Hk. destruct Hk as [Hki Hk].
      rewrite Hout by exact Hk. apply Ho1. exact Hki.
Qed.

(** [Shutdown] returns no error and cancels the timeout context of every
    tracked execution, so none of their deadlines fires afterwards; the
    store, the tracker and the bus log are left unchanged, and contexts of
    untracked executions are untouched. *)
Theorem Shutdown_disarms_all (w : World) :
  exists w',
    Shutdown w = Some (None, w') /\
    store w' = store w /\ executions w' = executions w /\ published w' = published w /\
    (forall k, executions w !! k <> None ->
       contexts w' !! k <> Some CtxActive /\ DeadlineExpires k w' = Some (tt, w')) /\
    (forall k, executions w !! k = None -> contexts w' !! k = contexts w !! k).
Proof.
  destruct (cancel_all_spec (map fst (map_to_list (executions w))) w)
    as (w' & Hrun & Hs & He & Hp & Hin & Hout).
  exists w'. unfold Shutdown, bind. rewrite Hrun. split; [reflexivity|].
  do 3 (split; [assumption|]). split.
  - intros k Hk. destruct (executions w !! k) as [ec|] eqn:Hl; [|contradiction].
    assert (Hk' : k ∈ map fst (map_to_list (executions w))).
    { apply list_elem_of_fmap. exists (k, ec). split; [reflexivity|].
      apply elem_of_map_to_list. exact Hl. }
    specialize (Hin k Hk'). split; [exact Hin|].
    unfold DeadlineExpires. destruct (contexts w' !! k) as [[]|]; done.
  - intros k Hk. apply Hout. intros Hk'.
    apply list_elem_of_fmap in Hk' as ([k' ec] & -> & Hl).
    apply elem_of_map_to_list in Hl. simpl in Hk. congruence.
Qed.


(* ------------------------------------------------------------------ *)
(** ** In-memory storage and event bus *)

(** In the in-memory storage, [Save] never fails and [Load] returns what was
    saved under the id; the other ids read as before. *)
Theorem memory_Load_Save {V : Type} (executionID : nat) (st : gmap string V)
  (s : gmap nat (MemoryStorage.Stored V)) :
  (MemoryStorage.Save executionID st s).1 = None /\
  MemoryStorage.Load executionID (MemoryStorage.Save executionID st s).2 = inr st /\
  (forall id, id <> executionID ->
     MemoryStorage.Load id (MemoryStorage.Save executionID st s).2 = MemoryStorage.Load id s).
Proof.
  unfold MemoryStorage.Save, MemoryStorage.Load. simpl. split; [reflexivity|].
  rewrite lookup_insert_eq. split; [reflexivity|].
  intros id Hid. rewrite lookup_insert_ne by congruence. reflexivity.
Qed.

(** [Exists] holds after [Save]; [Delete] never fails, after it [Exists] is
    false and [Load] reports "state not found", and other ids read as
    before. *)
Theorem memory_Delete_Exists {V : Type} (executionID : nat) (st : gmap string V)
  (s : gmap nat (MemoryStorage.Stored V)) :
  MemoryStorage.Exists executionID (MemoryStorage.Save executionID st s).2 = true /\
  (MemoryStorage.Delete executionID s).1 = None /\
  MemoryStorage.Exists executionID (MemoryStorage.Delete executionID s).2 = false /\
  MemoryStorage.Load executionID (MemoryStorage.Delete executionID s).2
    = inl (MemoryStorage.ErrStateNotFound executionID) /\
  (forall id, id <> executionID ->
     MemoryStorage.Load id (MemoryStorage.Delete executionID s).2 = MemoryStorage.Load id s).
Proof.
  unfold MemoryStorage.Save, MemoryStorage.Delete, MemoryStorage.Exists, MemoryStorage.Load.
  simpl. rewrite lookup_insert_eq, lookup_delete_eq.
  do 4 (split; [reflexivity|]).
  intros id Hid. rewrite lookup_delete_ne by congruence. reflexivity.
Qed.

(** [List] returns each stored id once, and exactly the ids for which
    [Exists] holds. *)
Theorem memory_List_Exists {V : Type} (s : gmap nat (MemoryStorage.Stored V)) :
  NoDup (MemoryStorage.List s) /\
  (forall id, id ∈ MemoryStorage.List s <-> MemoryStorage.Exists id s = true).
Proof.
  unfold MemoryStorage.List, MemoryStorage.Exists. split; [apply NoDup_fst_map_to_list|].
  intros id. rewrite list_elem_of_fmap. split.
  - intros ([k v] & -> & Hl). apply elem_of_map_to_list in Hl. simpl. rewrite Hl. reflexivity.
  - destruct (s !! id) as [v|] eqn:Hl; [|discriminate]. intros _.
    exists (id, v). split; [reflexivity|]. apply elem_of_map_to_list. exact Hl.
Qed.

(** A record written by [SaveState] is returned by [GetState] but refused
    by [Load] as an invalid state type; [SaveState] refuses a [state.State]
    argument, leaving the storage unchanged. *)
Theorem memory_SaveState_not_Loadable {V : Type} (gs : GraphState) (st : gmap string V)
  (s : gmap nat (MemoryStorage.Stored V)) :
  (MemoryStorage.SaveState (MemoryStorage.StoredGraphState gs) s).1 = None /\
  MemoryStorage.GetState (gs_GraphID gs)
    (MemoryStorage.SaveState (MemoryStorage.StoredGraphState gs) s).2
    = inr (MemoryStorage.StoredGraphState gs) /\
  MemoryStorage.Load (gs_GraphID gs)
    (MemoryStorage.SaveState (MemoryStorage.StoredGraphState gs) s).2
    = inl MemoryStorage.ErrInvalidStateType /\
  MemoryStorage.SaveState (MemoryStorage.StoredState st) s
    = (Some MemoryStorage.ErrInvalidStateType, s).
Proof.
  unfold MemoryStorage.SaveState, MemoryStorage.GetState, MemoryStorage.Load. simpl.
  rewrite lookup_insert_eq. repeat split.
Qed.

(** A sequence of [Subscribe] calls on a topic appends the handlers to its
    list (or changes nothing when there are none). *)
Lemma subscribe_all_lookup (topic : string) (hs : list nat) : forall e,
  MemoryBus.subscribe_all topic hs e
    = <[topic := default [] (e !! topic) ++ hs]> e \/ hs = [] /\ MemoryBus.subscribe_all topic hs e = e.
Proof.
  induction hs as [|h hs IH]; intros e; [right; split; reflexivity|left]. simpl.
  destruct (IH (<[topic:=default [] (e !! topic) ++ [h]]> e)) as [H|[-> H]]; rewrite H.
  - rewrite lookup_insert_eq, insert_insert_eq. simpl. rewrite <- app_assoc. reflexivity.
  - reflexivity.
Qed.

(** After a sequence of [Subscribe] calls on a topic, [Publish] on it
    returns no error and starts one handler call per subscription, earlier
    subscriptions first and then the new ones in order, duplicates
    included; other topics are unaffected. *)
Theorem bus_Publish_subscribed (topic : string) (hs : list nat) (ev : Event)
  (e : gmap string (list nat)) :
  MemoryBus.Publish topic ev (MemoryBus.subscribe_all topic hs e)
    = (None, map (fun h => (h, ev)) (default [] (e !! topic) ++ hs)) /\
  (forall t, t <> topic ->
     MemoryBus.Publish t ev (MemoryBus.subscribe_all topic hs e) = MemoryBus.Publish t ev e).
Proof.
  unfold MemoryBus.Publish.
  destruct (subscribe_all_lookup topic hs e) as [H|[-> H]]; rewrite H.
  - rewrite lookup_insert_eq. split; [reflexivity|].
    intros t Ht. rewrite lookup_insert_ne by congruence. reflexivity.
  - rewrite app_nil_r. split; reflexivity.
Qed.

(** After [Unsubscribe] of a topic, [Publish] on it starts no handler while
    other topics are unaffected; after [Close], no topic starts a handler.
    Both return no error. *)
Theorem bus_Publish_after_Unsubscribe_Close (topic : string) (ev : Event)
  (e : gmap string (list nat)) :
  (MemoryBus.Unsubscribe topic e).1 = None /\
  MemoryBus.Publish topic ev (MemoryBus.Unsubscribe topic e).2 = (None, []) /\
  (forall t, t <> topic ->
     MemoryBus.Publish t ev (MemoryBus.Unsubscribe topic e).2 = MemoryBus.Publish t ev e) /\
  (MemoryBus.Close e).1 = None /\
  (forall t, MemoryBus.Publish t ev (MemoryBus.Close e).2 = (None, [])).
Proof.
  unfold MemoryBus.Publish, MemoryBus.Unsubscribe, MemoryBus.Close. simpl.
  rewrite lookup_delete_eq. split; [reflexivity|]. split; [reflexivity|].
  split; [intros t Ht; rewrite lookup_delete_ne by congruence; reflexivity|].
  split; [reflexivity|]. intros t. rewrite lookup_empty. reflexivity.
Qed.

(* ------------------------------------------------------------------ *)
(** ** HTTP handlers *)

(** [handleGetResult] changes nothing and answers 200 exactly for a stored
    record that is Completed or Failed; a missing record gives 404, and a
    Cancelled record gives 409 NOT_COMPLETED. *)
Theorem handleGetResult_codes (graphID : nat) (w : World) :
  exists r,
    handleGetResult graphID w = Some (r, w) /\
    (resp_code r = StatusOK <->
       exists state, store w !! graphID = Some state /\
         (gs_Status state = ExecutionStatusCompleted \/ gs_Status state = ExecutionStatusFailed)) /\
    (store w !! graphID = None -> resp_code r = StatusNotFound) /\
    (stored_status w graphID = Some ExecutionStatusCancelled ->
       r = mkResponse StatusConflict
             (ErrorResponse "NOT_COMPLETED" (MsgText "Graph execution not yet completed"))).
Proof.
  unfold handleGetResult, GetStatus, stored_status. run_m.
  destruct (store w !! graphID) as [state|] eqn:Hl; simpl.
  - case_decide as Hd; eexists; (split; [reflexivity|]).
    + split; [split; [discriminate|intros (st & [= <-] & [Hc|Hc]); tauto]|].
      split; [discriminate|]. intros _. reflexivity.
    + split; [split; [intros _|reflexivity]|].
      * exists state. split; [reflexivity|].
        destruct (gs_Status state); try tauto; exfalso; apply Hd; split; discriminate.
      * split; [discriminate|]. intros [= Hc]. exfalso. apply Hd. rewrite Hc.
        split; discriminate.
  - eexists. split; [reflexivity|]. split; [split; [discriminate|intros (? & ? & _); discriminate]|].
    split; [reflexivity|discriminate].
Qed.

(** Cancelling over HTTP an execution without a tracker entry (unknown, or
    already finished) answers 409 CANCELLATION_FAILED with the
    execution-not-found error and changes nothing. *)
Theorem handleCancelGraph_untracked (graphID : nat) (w : World) :
  executions w !! graphID = None ->
  handleCancelGraph graphID w
    = Some (mkResponse StatusConflict
              (ErrorResponse "CANCELLATION_FAILED" (MsgErr (ErrExecutionNotFound graphID))), w).
Proof.
  intros He. unfold handleCancelGraph, CancelExecution. run_m. rewrite He. reflexivity.
Qed.

Lemma handleCancelGraph_untracked_witness :
  executions empty_world !! 0 = None /\
  handleCancelGraph 0 empty_world
    = Some (mkResponse StatusConflict
              (ErrorResponse "CANCELLATION_FAILED" (MsgErr (ErrExecutionNotFound 0))), empty_world).
Proof.
  assert (H : executions empty_world !! 0 = None) by reflexivity.
  split; [exact H|exact (handleCancelGraph_untracked 0 empty_world H)].
Defined.

(** [handleSubmitGraph] answers 400 INVALID_REQUEST to a request that does
    not bind, and 422 SUBMISSION_FAILED with the validation error to a graph
    refused by [Validate]; in both cases the world is unchanged. *)
Theorem handleSubmitGraph_rejects (fuel : nat) (w : World) :
  (forall bindErr : string,
     handleSubmitGraph fuel (inl bindErr) w
       = Some (mkResponse StatusBadRequest (ErrorResponse "INVALID_REQUEST" (MsgText bindErr)), w)) /\
  (forall g inputs e, Validate g = Some e ->
     handleSubmitGraph fuel (inr (g, inputs)) w
       = Some (mkResponse StatusUnprocessableEntity
                 (ErrorResponse "SUBMISSION_FAILED" (MsgErr (ErrValidation e))), w)).
Proof.
  split; [reflexivity|]. intros g inputs e HV.
  unfold handleSubmitGraph, SubmitGraph, SubmitGraph_persist. rewrite HV. reflexivity.
Qed.

Lemma handleSubmitGraph_rejects_witness :
  Validate dangling_graph = Some (ErrDanglingTarget "Z") /\
  handleSubmitGraph 3 (inr (dangling_graph, ∅)) empty_world
    = Some (mkResponse StatusUnprocessableEntity
              (ErrorResponse "SUBMISSION_FAILED" (MsgErr (ErrValidation (ErrDanglingTarget "Z")))),
            empty_world).
Proof.
  assert (HV : Validate dangling_graph = Some (ErrDanglingTarget "Z")) by (vm_compute; reflexivity).
  split; [exact HV|].
  exact (proj2 (handleSubmitGraph_rejects 3 empty_world) dangling_graph ∅ _ HV).
Defined.
